(** * Google Tasks MCP server: validation and dispatch layer

    A shallow embedding of [src/index.ts]: the argument validators, the
    string sanitizer, the error genericizer and the two request handlers
    (tool call and resource read), followed by the properties the
    specification states about them. *)

From Stdlib Require Import ZArith String Ascii.
From stdpp Require Import base option list gmap.

Local Open Scope Z_scope.
Local Set Warnings "-register-all".

(** ** JavaScript strings

    A JavaScript string is a sequence of UTF-16 code units; [length],
    [trim] and a regular expression without the [u] flag all work on code
    units, so that is what the model uses. *)

Abbreviation jsstring := (list N).

(** A source literal (ASCII only in this program) as a string value. *)
Fixpoint lit (s : string) : jsstring :=
  match s with
  | EmptyString => []
  | String c s' => N_of_ascii c :: lit s'
  end.

Definition str_length (s : jsstring) : Z := Z.of_nat (length s).

(** ** JavaScript values, as far as the handlers inspect them *)

Inductive jsval :=
| VUndefined
| VNull
| VBool (b : bool)
| VNumber (n : Z)
| VString (s : jsstring)
| VArray (items : list jsval)
| VObject (fields : gmap jsstring jsval).

Inductive jstype := TUndefined | TObject | TBoolean | TNumber | TString.

Definition typeof (v : jsval) : jstype :=
  match v with
  | VUndefined => TUndefined
  | VNull => TObject
  | VBool _ => TBoolean
  | VNumber _ => TNumber
  | VString _ => TString
  | VArray _ => TObject
  | VObject _ => TObject
  end.

(** [v.k] where the receiver is known to be an object: own properties of a
    plain object, and nothing under the names this program reads for the
    other kinds of value. *)
Definition prop (v : jsval) (k : jsstring) : jsval :=
  match v with
  | VObject fields => default VUndefined (fields !! k)
  | _ => VUndefined
  end.

(** ToBoolean, as used by [!x], [x ? a : b] and [x || y]. *)
Definition truthy (v : jsval) : bool :=
  match v with
  | VUndefined | VNull => false
  | VBool b => b
  | VNumber n => negb (n =? 0)
  | VString s => negb (bool_decide (s = []))
  | VArray _ | VObject _ => true
  end.

Definition js_or (a b : jsval) : jsval := if truthy a then a else b.

(** ** Constants of the module *)

Definition MAX_TITLE_LENGTH : Z := 256.
Definition MAX_NOTES_LENGTH : Z := 8192.
Definition MAX_TASK_ID_LENGTH : Z := 256.

Definition VALID_TASK_STATUSES : list jsstring :=
  [lit "needsAction"; lit "completed"].

(** ** Sanitization *)

(** WhiteSpace and LineTerminator code units, the set [String.prototype.trim]
    removes. *)
Definition is_whitespace (c : N) : bool :=
  ((9 <=? c) && (c <=? 13) || (c =? 32) || (c =? 160) || (c =? 5760)
   || (8192 <=? c) && (c <=? 8202) || (c =? 8232) || (c =? 8233)
   || (c =? 8239) || (c =? 8287) || (c =? 12288) || (c =? 65279))%N.

(** The character class [[\x00-\x1F\x7F]]. *)
Definition is_control (c : N) : bool := ((c <=? 31) || (c =? 127))%N.

Fixpoint trimStart (s : jsstring) : jsstring :=
  match s with
  | c :: s' => if is_whitespace c then trimStart s' else s
  | [] => []
  end.

Fixpoint trimEnd (s : jsstring) : jsstring :=
  match s with
  | c :: s' =>
      match trimEnd s' with
      | [] => if is_whitespace c then [] else [c]
      | t => c :: t
      end
  | [] => []
  end.

Definition trim (s : jsstring) : jsstring := trimEnd (trimStart s).

(** [s.replace(/[\x00-\x1F\x7F]/g, '')]. *)
Definition strip_control (s : jsstring) : jsstring :=
  filter (λ c, is_control c = false) s.

(** The string branch of [sanitizeString]: trim first, then delete the
    control characters. *)
Definition sanitize (input : jsstring) : jsstring :=
  strip_control (trim input).

(** ** Validators *)

Definition isValidTaskStatus (status : jsval) : bool :=
  match status with
  | VString s => bool_decide (s ∈ VALID_TASK_STATUSES)
  | _ => false
  end.

Definition is_undefined (v : jsval) : bool :=
  match v with VUndefined => true | _ => false end.

Definition is_null (v : jsval) : bool :=
  match v with VNull => true | _ => false end.

Definition typeof_is (t : jstype) (v : jsval) : bool :=
  match typeof v, t with
  | TUndefined, TUndefined | TObject, TObject | TBoolean, TBoolean
  | TNumber, TNumber | TString, TString => true
  | _, _ => false
  end.

(** [v.length] of a value already known to be a string. *)
Definition length_of (v : jsval) : Z :=
  match v with VString s => str_length s | _ => 0 end.

Definition isValidCreateTaskArgs (args : jsval) : bool :=
  if negb (typeof_is TObject args) || is_null args then false
  else if negb (is_undefined (prop args (lit "title")))
          && (negb (typeof_is TString (prop args (lit "title")))
              || (MAX_TITLE_LENGTH <? length_of (prop args (lit "title"))))
  then false
  else if negb (is_undefined (prop args (lit "notes")))
          && (negb (typeof_is TString (prop args (lit "notes")))
              || (MAX_NOTES_LENGTH <? length_of (prop args (lit "notes"))))
  then false
  else if negb (is_undefined (prop args (lit "taskId")))
          && (negb (typeof_is TString (prop args (lit "taskId")))
              || (MAX_TASK_ID_LENGTH <? length_of (prop args (lit "taskId"))))
  then false
  else if negb (is_undefined (prop args (lit "status")))
          && (negb (typeof_is TString (prop args (lit "status")))
              || negb (isValidTaskStatus (prop args (lit "status"))))
  then false
  else true.

Definition isValidDeleteTaskArgs (args : jsval) : bool :=
  typeof_is TObject args
  && negb (is_null args)
  && typeof_is TString (prop args (lit "taskId"))
  && (0 <? length_of (prop args (lit "taskId")))
  && (length_of (prop args (lit "taskId")) <=? MAX_TASK_ID_LENGTH).

Definition isValidCompleteTaskArgs (args : jsval) : bool :=
  if negb (typeof_is TObject args) || is_null args then false
  else if negb (typeof_is TString (prop args (lit "taskId")))
          || (length_of (prop args (lit "taskId")) =? 0)
          || (MAX_TASK_ID_LENGTH <? length_of (prop args (lit "taskId")))
  then false
  else if negb (is_undefined (prop args (lit "status")))
          && (negb (typeof_is TString (prop args (lit "status")))
              || negb (isValidTaskStatus (prop args (lit "status"))))
  then false
  else true.

(** ** Errors, the remote service and the handler monad *)

(** The members of the SDK's [ErrorCode] this module uses. *)
Inductive ErrorCode := InvalidRequest | MethodNotFound | InvalidParams | InternalError.

(** What a [throw] can carry. [McpError] is a subclass of [Error]; its
    second field is the message handed to the constructor. *)
Inductive thrown :=
| McpError (code : ErrorCode) (message : jsstring)
| Error (name message : jsstring)
| NonError (v : jsval).

Definition instanceof_Error (e : thrown) : bool :=
  match e with
  | McpError _ _ | Error _ _ => true
  | NonError _ => false
  end.

(** The calls made on [tasks.tasks]. *)
Inductive remote_request :=
| TasksList (tasklist : jsstring)
| TasksInsert (tasklist : jsstring) (title : jsstring) (notes : option jsstring) (status : jsval)
| TasksDelete (tasklist : jsstring) (task : jsstring)
| TasksPatch (tasklist : jsstring) (task : jsstring) (status : jsval).

(** An awaited remote call either resolves to a response object or rejects. *)
Inductive remote_reply :=
| Resolves (response : jsval)
| Rejects (e : thrown).

(** The service as one request sees it. A request awaits at most one call,
    so a function from the call to its answer is enough; how the service
    answers from one request to the next is not modelled. *)
Definition remote_api := remote_request → remote_reply.

Inductive log_entry :=
| FullErrorDetails (e : thrown).

(** What one invocation leaves behind: the remote calls it issued and the
    lines it wrote with [console.error], oldest first. *)
Record world := World {
  remote_calls : list remote_request;
  stderr : list log_entry
}.

Definition quiet : world := World [] [].

Inductive outcome (A : Type) :=
| Returns (a : A)
| Throws (e : thrown).
Arguments Returns {A} a.
Arguments Throws {A} e.

Definition M (A : Type) : Type := remote_api → world → outcome A * world.

#[export] Instance M_ret : MRet M := λ A a _ w, (Returns a, w).

#[export] Instance M_bind : MBind M := λ A B k m api w,
  match m api w with
  | (Returns a, w') => k a api w'
  | (Throws e, w') => (Throws e, w')
  end.

Definition throw {A} (e : thrown) : M A := λ _ w, (Throws e, w).

Definition try_catch {A} (body : M A) (handler : thrown → M A) : M A := λ api w,
  match body api w with
  | (Returns a, w') => (Returns a, w')
  | (Throws e, w') => handler e api w'
  end.

Definition console_error (entry : log_entry) : M unit := λ _ w,
  (Returns (), World (remote_calls w) (stderr w ++ [entry])).

(** [await tasks.tasks.f(...)]. *)
Definition await_remote (req : remote_request) : M jsval := λ api w,
  let w' := World (remote_calls w ++ [req]) (stderr w) in
  match api req with
  | Resolves response => (Returns response, w')
  | Rejects e => (Throws e, w')
  end.

(** [v.k] on an arbitrary value: reading a property of [undefined] or [null]
    throws a [TypeError] (its exact text is the engine's). *)
Definition member (v : jsval) (k : jsstring) : M jsval :=
  match v with
  | VUndefined | VNull =>
      throw (Error (lit "TypeError") (lit "Cannot read properties of undefined"))
  | _ => mret (prop v k)
  end.

(** ** The module's functions *)

Definition sanitizeString (input : jsval) : M jsstring :=
  match input with
  | VString s => mret (sanitize s)
  | _ => throw (Error (lit "Error") (lit "Input must be a string"))
  end.

Definition getSafeErrorMessage (error : thrown) : M jsstring :=
  if instanceof_Error error then
    console_error (FullErrorDetails error);;
    mret (lit "An error occurred while processing your request")
  else mret (lit "Unknown error occurred").

(** The [catch] block every remote call sits in. *)
Definition genericize {A} (error : thrown) : M A :=
  message ← getSafeErrorMessage error;
  throw (McpError InternalError message).

Inductive text :=
| Literal (s : jsstring)
| JSONstringify (v : jsval).

Inductive reply :=
| ToolContent (t : text)
| ResourceContents (uri mimeType : jsstring) (t : text).

Definition default_tasklist : jsstring := lit "@default".

Definition read_resource (uri : jsstring) : M reply :=
  if negb (bool_decide (uri = lit "tasks://default")) then
    throw (McpError InvalidRequest (lit "Unknown resource: " ++ uri))
  else
    try_catch
      (response ← await_remote (TasksList default_tasklist);
       data ← member response (lit "data");
       items ← member data (lit "items");
       mret (ResourceContents uri (lit "application/json") (JSONstringify items)))
      genericize.

Definition list_tasks : M reply :=
  try_catch
    (response ← await_remote (TasksList default_tasklist);
     data ← member response (lit "data");
     items ← member data (lit "items");
     mret (ToolContent (JSONstringify items)))
    genericize.

Definition create_task (arguments : jsval) : M reply :=
  if negb (isValidCreateTaskArgs arguments) then
    throw (McpError InvalidParams
      (lit "Invalid arguments for creating a task. 'title' must be a string (max 256 chars), 'notes' must be a string (max 8192 chars), and 'status' must be 'needsAction' or 'completed'."))
  else
    let args := arguments in
    sanitizedTitle ← sanitizeString (prop args (lit "title"));
    sanitizedNotes ←
      (if truthy (prop args (lit "notes"))
       then notes ← sanitizeString (prop args (lit "notes")); mret (Some notes)
       else mret None);
    if negb (truthy (VString sanitizedTitle)) then
      throw (McpError InvalidParams
        (lit "Task title cannot be empty after sanitization."))
    else
      try_catch
        (response ← await_remote
           (TasksInsert default_tasklist sanitizedTitle sanitizedNotes
              (prop args (lit "status")));
         data ← member response (lit "data");
         mret (ToolContent (JSONstringify data)))
        genericize.

Definition delete_task (arguments : jsval) : M reply :=
  if negb (isValidDeleteTaskArgs arguments) then
    throw (McpError InvalidParams
      (lit "Invalid arguments for deleting a task. 'taskId' must be a non-empty string."))
  else
    let args := arguments in
    taskId ← sanitizeString (prop args (lit "taskId"));
    if negb (truthy (VString taskId)) then
      throw (McpError InvalidParams
        (lit "Task ID cannot be empty after sanitization."))
    else
      try_catch
        (await_remote (TasksDelete default_tasklist taskId);;
         mret (ToolContent (Literal (lit "Task deleted successfully."))))
        genericize.

Definition complete_task (arguments : jsval) : M reply :=
  if negb (isValidCompleteTaskArgs arguments) then
    throw (McpError InvalidParams
      (lit "Invalid arguments for completing a task. 'taskId' must be a non-empty string and 'status' must be 'needsAction' or 'completed'."))
  else
    let args := arguments in
    taskId ← sanitizeString (prop args (lit "taskId"));
    let newStatus := js_or (prop args (lit "status")) (VString (lit "completed")) in
    if negb (truthy (VString taskId)) then
      throw (McpError InvalidParams
        (lit "Task ID cannot be empty after sanitization."))
    else if negb (isValidTaskStatus newStatus) then
      throw (McpError InvalidParams
        (lit "Invalid task status. Must be 'needsAction' or 'completed'."))
    else
      try_catch
        (updateResponse ← await_remote (TasksPatch default_tasklist taskId newStatus);
         data ← member updateResponse (lit "data");
         mret (ToolContent (JSONstringify data)))
        genericize.

(** The [CallToolRequestSchema] handler; [name] and [arguments] are
    [request.params.name] and [request.params.arguments]. *)
Definition call_tool (name : jsstring) (arguments : jsval) : M reply :=
  if bool_decide (name = lit "list_tasks") then list_tasks
  else if bool_decide (name = lit "create_task") then create_task arguments
  else if bool_decide (name = lit "delete_task") then delete_task arguments
  else if bool_decide (name = lit "complete_task") then complete_task arguments
  else throw (McpError MethodNotFound (lit "Unknown tool: " ++ name)).

(** One protocol request served from a fresh process state. *)
Inductive request :=
| CallTool (name : jsstring) (arguments : jsval)
| ReadResource (uri : jsstring).

Definition handle (rq : request) : M reply :=
  match rq with
  | CallTool name arguments => call_tool name arguments
  | ReadResource uri => read_resource uri
  end.

Definition serve (rq : request) (api : remote_api) : outcome reply * world :=
  handle rq api quiet.

(** A request's argument object from its fields. *)
Definition obj (fields : list (jsstring * jsval)) : jsval :=
  VObject (list_to_map fields).

(** Two remote services for the examples: one that answers every call with
    an empty task list, one that always fails. *)
Definition echo_api : remote_api := λ req,
  Resolves (obj [(lit "data", obj [(lit "items", VArray [])])]).

Definition failing_api (e : thrown) : remote_api := λ _, Rejects e.

(** ** Vocabulary of the specification *)

(** The message a caller sees after a remote failure: one of two constants,
    chosen by the class of the thrown value alone. *)
Definition generic_message (e : thrown) : jsstring :=
  if instanceof_Error e
  then lit "An error occurred while processing your request"
  else lit "Unknown error occurred".

Definition leading_whitespace (s : jsstring) : bool :=
  match s with c :: _ => is_whitespace c | [] => false end.

Definition trailing_whitespace (s : jsstring) : bool :=
  match last s with Some c => is_whitespace c | None => false end.

(** "Consists only of whitespace and/or ASCII control characters". *)
Definition blank (s : jsstring) : bool :=
  forallb (λ c, is_whitespace c || is_control c) s.

Definition only_control (s : jsstring) : bool := forallb is_control s.

Definition no_control (s : jsstring) : bool := forallb (λ c, negb (is_control c)) s.

(** The [notes] member of the insert body, for arguments that passed
    [isValidCreateTaskArgs]. *)
Definition notes_sent (args : jsval) : option jsstring :=
  match prop args (lit "notes") with
  | VString notes => if bool_decide (notes = []) then None else Some (sanitize notes)
  | _ => None
  end.

(** [JSON.stringify(response.data, null, 2)] wrapped as tool content. *)
Definition stringify_data (response : jsval) : M reply :=
  data ← member response (lit "data");
  mret (ToolContent (JSONstringify data)).

(** What a validator leaves possible for an optional string field. *)
Definition absent_or_string (v : jsval) (P : jsstring → Prop) : Prop :=
  v = VUndefined ∨ ∃ s, v = VString s ∧ P s.

(** A computation that issues no remote call. *)
Definition local {A} (m : M A) : Prop :=
  ∀ api w, remote_calls (m api w).2 = remote_calls w.

(** The two ways a handler ends: it throws before touching the remote
    service, or it awaits exactly one remote call inside the genericizing
    [try]/[catch]. *)
Definition one_shot {A} (m : M A) : Prop :=
  (∃ e, ∀ api w, m api w = (Throws e, w))
  ∨ (∃ req k, (∀ r, local (k r))
       ∧ ∀ api w, m api w = try_catch (await_remote req ≫= k) genericize api w).

(** ** The advertised surface

    The [ListResources] and [ListTools] handlers return constants. Of each
    tool's [inputSchema] the model keeps [properties] and [required]; its
    [type] is ["object"] for all four. *)

Record resource := Resource {
  r_uri : jsstring;
  r_name : jsstring;
  r_mimeType : jsstring;
  r_description : jsstring
}.

Definition list_resources : list resource :=
  [Resource (lit "tasks://default") (lit "Default Task List")
     (lit "application/json") (lit "Manage your Google Tasks")].

Record schema_property := SchemaProperty {
  p_name : jsstring;
  p_type : jsstring;
  p_description : jsstring;
  p_maxLength : option Z;
  p_enum : option (list jsstring)
}.

Record tool := Tool {
  t_name : jsstring;
  t_description : jsstring;
  t_properties : list schema_property;
  t_required : list jsstring
}.

Definition list_tools : list tool :=
  [Tool (lit "create_task") (lit "Create a new task in Google Tasks")
     [SchemaProperty (lit "title") (lit "string") (lit "Title of the task")
        (Some MAX_TITLE_LENGTH) None;
      SchemaProperty (lit "notes") (lit "string") (lit "Notes for the task")
        (Some MAX_NOTES_LENGTH) None]
     [lit "title"];
   Tool (lit "list_tasks") (lit "List all tasks in the default task list") [] [];
   Tool (lit "delete_task") (lit "Delete a task from the default task list")
     [SchemaProperty (lit "taskId") (lit "string") (lit "ID of the task to delete")
        (Some MAX_TASK_ID_LENGTH) None]
     [lit "taskId"];
   Tool (lit "complete_task") (lit "Toggle the completion status of a task")
     [SchemaProperty (lit "taskId") (lit "string")
        (lit "ID of the task to toggle completion status")
        (Some MAX_TASK_ID_LENGTH) None;
      SchemaProperty (lit "status") (lit "string")
        (lit "Status of task, needsAction or completed")
        None (Some VALID_TASK_STATUSES)]
     [lit "taskId"]].

(** ** Start-up

    The two checks of the environment the module makes before anything else;
    [env] is [process.env] once [dotenv.config()] has run. *)

Inductive startup :=
| Exits (code : Z) (message : jsstring)
| Proceeds.

(** [!process.env.K]. *)
Definition env_missing (env : gmap jsstring jsstring) (k : jsstring) : bool :=
  negb (truthy (from_option VString VUndefined (env !! k))).

Definition startup_check (env : gmap jsstring jsstring) : startup :=
  if env_missing env (lit "CLIENT_ID") || env_missing env (lit "CLIENT_SECRET")
     || env_missing env (lit "REDIRECT_URI")
  then Exits 1
         (lit "Missing required environment variables: CLIENT_ID, CLIENT_SECRET, REDIRECT_URI")
  else if env_missing env (lit "ACCESS_TOKEN") || env_missing env (lit "REFRESH_TOKEN")
  then Exits 1
         (lit "Missing required authentication tokens: ACCESS_TOKEN, REFRESH_TOKEN")
  else Proceeds.

(** ** Further vocabulary *)

(** A string field as the remote service should see it: free of control
    characters and with a length in the given range. *)
Definition clean (lo hi : Z) (s : jsstring) : bool :=
  no_control s && (lo <=? str_length s) && (str_length s <=? hi).

Definition well_formed_request (req : remote_request) : bool :=
  match req with
  | TasksList tasklist => bool_decide (tasklist = lit "@default")
  | TasksInsert tasklist title notes status =>
      bool_decide (tasklist = lit "@default")
      && clean 1 MAX_TITLE_LENGTH title
      && from_option (clean 0 MAX_NOTES_LENGTH) true notes
      && (is_undefined status || isValidTaskStatus status)
  | TasksDelete tasklist task =>
      bool_decide (tasklist = lit "@default") && clean 1 MAX_TASK_ID_LENGTH task
  | TasksPatch tasklist task status =>
      bool_decide (tasklist = lit "@default") && clean 1 MAX_TASK_ID_LENGTH task
      && isValidTaskStatus status
  end.

(** A computation that neither reads nor changes the world. *)
Definition pure_step {A} (m : M A) : Prop :=
  ∃ o, ∀ api w, m api w = (o, w).

Definition is_internal_error (e : thrown) : bool :=
  match e with McpError InternalError _ => true | _ => false end.

(** What a tool handler throws on bad arguments: an [InvalidParams] error,
    or the plain [Error] of [sanitizeString]. *)
Definition argument_error (e : thrown) : bool :=
  match e with
  | McpError InvalidParams _ | Error _ _ => true
  | _ => false
  end.

Definition is_method_not_found (e : thrown) : bool :=
  match e with McpError MethodNotFound _ => true | _ => false end.

Definition is_invalid_request (e : thrown) : bool :=
  match e with McpError InvalidRequest _ => true | _ => false end.

(** The handlers' shape in full: a throw of kind [P] before the remote
    service is touched, or one awaited call whose continuation only
    inspects the response, inside the genericizing [try]/[catch]. *)
Definition staged {A} (P : thrown → bool) (m : M A) : Prop :=
  (∃ e, P e = true ∧ ∀ api w, m api w = (Throws e, w))
  ∨ (∃ req k, (∀ r, pure_step (k r))
       ∧ ∀ api w, m api w = try_catch (await_remote req ≫= k) genericize api w).

(** The tool reply turned into the resource reply for [uri]. *)
Definition as_resource (uri : jsstring) (r : reply) : reply :=
  match r with
  | ToolContent t => ResourceContents uri (lit "application/json") t
  | other => other
  end.

Definition map_outcome {A B} (f : A → B) (o : outcome A) : outcome B :=
  match o with
  | Returns a => Returns (f a)
  | Throws e => Throws e
  end.

Arguments lit : simpl never.

Ltac run_M :=
  unfold genericize, getSafeErrorMessage, sanitizeString, member, await_remote,
    console_error, try_catch, throw, mbind, M_bind, mret, M_ret in *;
  cbn [fst snd remote_calls stderr quiet] in *.

(** ** The specification's examples *)

Example whitespace_code_units :
  map is_whitespace [9; 13; 14; 32; 160; 8200; 8203; 65279]%N
  = [true; true; false; true; true; true; false; true].
Proof. reflexivity. Qed.

Example sanitize_buy_milk :
  sanitize ([32; 32]%N ++ lit "Buy milk" ++ [1]%N) = lit "Buy milk".
Proof. reflexivity. Qed.

Example create_task_buy_milk :
  serve (CallTool (lit "create_task")
           (obj [(lit "title", VString ([32; 32]%N ++ lit "Buy milk" ++ [1]%N))]))
        echo_api
  = (Returns (ToolContent (JSONstringify (obj [(lit "items", VArray [])]))),
     World [TasksInsert (lit "@default") (lit "Buy milk") None VUndefined] []).
Proof. vm_compute. reflexivity. Qed.

Example delete_task_empty_id :
  serve (CallTool (lit "delete_task") (obj [(lit "taskId", VString [])])) echo_api
  = (Throws (McpError InvalidParams
       (lit "Invalid arguments for deleting a task. 'taskId' must be a non-empty string.")),
     quiet).
Proof. vm_compute. reflexivity. Qed.

Example list_tasks_failure_logged :
  serve (CallTool (lit "list_tasks") VUndefined)
        (failing_api (Error (lit "Error") (lit "socket hang up")))
  = (Throws (McpError InternalError
       (lit "An error occurred while processing your request")),
     World [TasksList (lit "@default")]
           [FullErrorDetails (Error (lit "Error") (lit "socket hang up"))]).
Proof. vm_compute. reflexivity. Qed.

(** ** Property reads *)

Lemma prop_lookup (fields : gmap jsstring jsval) k v :
  fields !! k = Some v → prop (VObject fields) k = v.
Proof. intros H. cbn. by rewrite H. Qed.

Lemma prop_absent (fields : gmap jsstring jsval) k :
  fields !! k = None → prop (VObject fields) k = VUndefined.
Proof. intros H. cbn. by rewrite H. Qed.

Lemma prop_insert_eq (fields : gmap jsstring jsval) k v :
  prop (VObject (<[k:=v]> fields)) k = v.
Proof. cbn. by rewrite lookup_insert_eq. Qed.

Lemma prop_insert_ne (fields : gmap jsstring jsval) k k' v :
  k ≠ k' → prop (VObject (<[k:=v]> fields)) k' = prop (VObject fields) k'.
Proof. intros H. cbn. by rewrite lookup_insert_ne. Qed.

Lemma prop_delete_eq (fields : gmap jsstring jsval) k :
  prop (VObject (delete k fields)) k = VUndefined.
Proof. cbn. by rewrite lookup_delete_eq. Qed.

Lemma prop_delete_ne (fields : gmap jsstring jsval) k k' :
  k ≠ k' → prop (VObject (delete k fields)) k' = prop (VObject fields) k'.
Proof. intros H. cbn. by rewrite lookup_delete_ne. Qed.

(** ** The dispatcher *)

Lemma call_tool_list args : call_tool (lit "list_tasks") args = list_tasks.
Proof. reflexivity. Qed.

Lemma call_tool_create args : call_tool (lit "create_task") args = create_task args.
Proof. reflexivity. Qed.

Lemma call_tool_delete args : call_tool (lit "delete_task") args = delete_task args.
Proof. reflexivity. Qed.

Lemma call_tool_complete args : call_tool (lit "complete_task") args = complete_task args.
Proof. reflexivity. Qed.

(** ** The remote call and its [catch] block *)

Lemma genericize_run {A} e api w :
  @genericize A e api w
  = (Throws (McpError InternalError (generic_message e)),
     World (remote_calls w)
           (if instanceof_Error e then stderr w ++ [FullErrorDetails e] else stderr w)).
Proof.
  unfold generic_message. run_M. destruct (instanceof_Error e), w; reflexivity.
Qed.

Lemma bind_ret {A B} (a : A) (k : A → M B) api w : (mret a ≫= k) api w = k a api w.
Proof. reflexivity. Qed.

Lemma bind_throw {A B} e (k : A → M B) api w : (throw e ≫= k) api w = (Throws e, w).
Proof. reflexivity. Qed.

Lemma bind_assoc {A B C} (m : M A) (k : A → M B) (h : B → M C) api w :
  ((m ≫= k) ≫= h) api w = (m ≫= λ a, k a ≫= h) api w.
Proof. unfold mbind, M_bind. by destruct (m api w) as [[a|e] w']. Qed.

Lemma local_ret {A} (a : A) : local (mret a).
Proof. intros api w. reflexivity. Qed.

Lemma local_member v k : local (member v k).
Proof. intros api w. destruct v; reflexivity. Qed.

Lemma local_bind {A B} (m : M A) (k : A → M B) :
  local m → (∀ a, local (k a)) → local (m ≫= k).
Proof.
  intros Hm Hk api w. unfold mbind, M_bind. specialize (Hm api w).
  destruct (m api w) as [[a|e] w1]; cbn in *; [rewrite Hk|]; done.
Qed.

(** Every remote call of the module has this shape: one awaited request,
    a continuation that only reads the response, and the genericizing
    [catch]. *)
Lemma guarded_call {A} req (k : jsval → M A) api w :
  (∀ r, local (k r)) →
  remote_calls (try_catch (await_remote req ≫= k) genericize api w).2
    = remote_calls w ++ [req]
  ∧ ∀ e, api req = Rejects e →
      (try_catch (await_remote req ≫= k) genericize api w).1
        = Throws (McpError InternalError (generic_message e)).
Proof.
  intros Hk. unfold try_catch, mbind, M_bind, await_remote.
  destruct (api req) as [response|e0] eqn:Hreq.
  - pose proof (Hk response api (World (remote_calls w ++ [req]) (stderr w))) as Hl.
    destruct (k response api _) as [[a|e1] w1]; cbn in *.
    + split; [done|discriminate].
    + rewrite genericize_run. cbn. split; [done|discriminate].
  - rewrite genericize_run. cbn. split; [done|]. by intros e [= ->].
Qed.

(** ** Shape of the handlers *)

Ltac one_shot_leaf :=
  first
    [ left; eexists; intros; reflexivity
    | right; eexists _, _; split; [| intros; reflexivity];
      intros ?; repeat (apply local_bind; [| intros ?]); cbv beta;
      auto using local_member, local_ret ].

Lemma list_tasks_one_shot : one_shot list_tasks.
Proof. unfold list_tasks. one_shot_leaf. Qed.

Lemma read_resource_one_shot uri : one_shot (read_resource uri).
Proof. unfold read_resource. case_bool_decide; cbn [negb]; one_shot_leaf. Qed.

Lemma one_shot_bind_ret {A B} (a : A) (k : A → M B) :
  one_shot (k a) → one_shot (mret a ≫= k).
Proof. exact id. Qed.

Lemma one_shot_bind_throw {A B} e (k : A → M B) : one_shot (throw e ≫= k).
Proof. one_shot_leaf. Qed.

Ltac one_shot_step :=
  cbn [sanitizeString negb];
  first [ apply one_shot_bind_throw | apply one_shot_bind_ret ].

Lemma create_task_one_shot args : one_shot (create_task args).
Proof.
  unfold create_task. destruct (isValidCreateTaskArgs args); cbn [negb]; [|one_shot_leaf].
  destruct (prop args (lit "title")) as [| | | |title| |]; one_shot_step.
  destruct (truthy (prop args (lit "notes"))).
  - destruct (prop args (lit "notes")) as [| | | |notes| |]; one_shot_step.
    destruct (truthy (VString (sanitize title))) eqn:Ht; one_shot_leaf.
  - destruct (truthy (VString (sanitize title))) eqn:Ht; one_shot_leaf.
Qed.

Lemma delete_task_one_shot args : one_shot (delete_task args).
Proof.
  unfold delete_task. destruct (isValidDeleteTaskArgs args); cbn [negb]; [|one_shot_leaf].
  destruct (prop args (lit "taskId")) as [| | | |taskId| |]; one_shot_step.
  destruct (truthy (VString (sanitize taskId))); one_shot_leaf.
Qed.

Lemma complete_task_one_shot args : one_shot (complete_task args).
Proof.
  unfold complete_task. destruct (isValidCompleteTaskArgs args); cbn [negb]; [|one_shot_leaf].
  destruct (prop args (lit "taskId")) as [| | | |taskId| |]; one_shot_step.
  destruct (truthy (VString (sanitize taskId))); [|one_shot_leaf].
  destruct (isValidTaskStatus _); one_shot_leaf.
Qed.

Lemma handle_one_shot rq : one_shot (handle rq).
Proof.
  destruct rq as [name args|uri]; cbn [handle]; [|apply read_resource_one_shot].
  unfold call_tool. repeat case_bool_decide;
    auto using list_tasks_one_shot, create_task_one_shot, delete_task_one_shot,
      complete_task_one_shot.
  one_shot_leaf.
Qed.

(** A request makes at most one remote call. *)
Lemma serve_at_most_one_call rq api :
  (length (remote_calls (serve rq api).2) ≤ 1)%nat.
Proof.
  unfold serve. destruct (handle_one_shot rq) as [[e ->]|(req & k & Hk & ->)]; [cbn; lia|].
  destruct (guarded_call req k api quiet Hk) as [-> _]. cbn. lia.
Qed.

(** C3. Whenever the remote call of a request (any of the four tools, or
    the resource read) fails by throwing [e], the caller receives an
    [McpError] with code [InternalError] whose message is one of two
    constants selected by [e instanceof Error] alone: no part of the
    message is computed from the name or text of [e]. *)
Theorem remote_failure_is_genericized (rq : request) (api : remote_api)
    (req : remote_request) (e : thrown) :
  req ∈ remote_calls (serve rq api).2 →
  api req = Rejects e →
  (serve rq api).1
  = Throws (McpError InternalError
      (if instanceof_Error e
       then lit "An error occurred while processing your request"
       else lit "Unknown error occurred")).
Proof.
  unfold serve. intros Hin Hrej.
  destruct (handle_one_shot rq) as [[e0 H]|(req0 & k & Hk & H)]; rewrite H in *.
  - cbn in Hin. set_solver.
  - destruct (guarded_call req0 k api quiet Hk) as [Hcalls Hout].
    rewrite Hcalls in Hin. cbn in Hin. apply list_elem_of_singleton in Hin as ->.
    apply Hout, Hrej.
Qed.

Lemma remote_failure_is_genericized_witness :
  (serve (CallTool (lit "delete_task") (obj [(lit "taskId", VString (lit "abc"))]))
         (failing_api (Error (lit "GaxiosError") (lit "invalid_grant: token abc123")))).1
  = Throws (McpError InternalError (lit "An error occurred while processing your request")).
Proof.
  apply (remote_failure_is_genericized _ _
           (TasksDelete (lit "@default") (lit "abc"))
           (Error (lit "GaxiosError") (lit "invalid_grant: token abc123"))).
  - vm_compute. apply list_elem_of_here.
  - reflexivity.
Defined.

(** The outcome seen by the caller after a remote failure is the same for
    any two failures of the same class, whatever their text. *)
Lemma remote_failure_text_independent rq e1 e2 :
  instanceof_Error e1 = instanceof_Error e2 →
  (serve rq (failing_api e1)).1 = (serve rq (failing_api e2)).1.
Proof.
  intros Hclass. unfold serve.
  destruct (handle_one_shot rq) as [[e0 H]|(req0 & k & Hk & H)]; rewrite !H; [done|].
  destruct (guarded_call req0 k (failing_api e1) quiet Hk) as [_ H1].
  destruct (guarded_call req0 k (failing_api e2) quiet Hk) as [_ H2].
  rewrite (H1 e1), (H2 e2) by done.
  unfold generic_message. by rewrite Hclass.
Qed.

(** ** Sanitization *)

Lemma sanitize_no_control s : no_control (sanitize s) = true.
Proof.
  unfold no_control, sanitize, strip_control. apply forallb_forall.
  intros c [Hc _]%list_elem_of_In%list_elem_of_filter. by rewrite Hc.
Qed.

Lemma trimStart_leading s : leading_whitespace (trimStart s) = false.
Proof.
  induction s as [|c s IH]; [done|]. cbn. destruct (is_whitespace c) eqn:Hc; [done|].
  cbn. exact Hc.
Qed.

Lemma trimEnd_leading s : leading_whitespace s = false → leading_whitespace (trimEnd s) = false.
Proof.
  destruct s as [|c s]; [done|]. cbn. intros Hc. destruct (trimEnd s); [|done].
  by rewrite Hc.
Qed.

Lemma trimEnd_trailing s : trailing_whitespace (trimEnd s) = false.
Proof.
  unfold trailing_whitespace. induction s as [|c s IH]; [done|]. cbn.
  destruct (trimEnd s) as [|d t] eqn:Ht.
  - destruct (is_whitespace c) eqn:Hc; [done|]. cbn. by rewrite Hc.
  - rewrite last_cons. destruct (last (d :: t)) eqn:Hl; [done|].
    by apply last_None in Hl.
Qed.

Lemma trim_trimmed s :
  leading_whitespace (trim s) = false ∧ trailing_whitespace (trim s) = false.
Proof. split; [apply trimEnd_leading, trimStart_leading|apply trimEnd_trailing]. Qed.

Lemma strip_control_id s : no_control s = true → strip_control s = s.
Proof.
  unfold no_control, strip_control.
  induction s as [|c s IH]; [done|]. cbn [forallb].
  intros [Hc Hs]%andb_true_iff. apply negb_true_iff in Hc.
  rewrite filter_cons_True by done. by rewrite IH.
Qed.

Lemma forallb_trimStart (P : N → bool) s :
  forallb P s = true → forallb P (trimStart s) = true.
Proof.
  induction s as [|c s IH]; [done|]. cbn. intros [Hc Hs]%andb_true_iff.
  destruct (is_whitespace c); [auto|]. cbn. by rewrite Hc, Hs.
Qed.

Lemma forallb_trimEnd (P : N → bool) s :
  forallb P s = true → forallb P (trimEnd s) = true.
Proof.
  induction s as [|c s IH]; [done|]. cbn. intros [Hc Hs]%andb_true_iff.
  specialize (IH Hs). destruct (trimEnd s) as [|d t].
  - destruct (is_whitespace c); [done|]. cbn. by rewrite Hc.
  - cbn [forallb] in *. by rewrite Hc, IH.
Qed.

Lemma forallb_trim (P : N → bool) s : forallb P s = true → forallb P (trim s) = true.
Proof. intros H. by apply forallb_trimEnd, forallb_trimStart. Qed.

(** On an input without control characters the sanitizer is [trim], and
    its result has no whitespace at either end. *)
Lemma sanitize_trimmed_without_control s :
  no_control s = true →
  sanitize s = trim s
  ∧ leading_whitespace (sanitize s) = false
  ∧ trailing_whitespace (sanitize s) = false.
Proof.
  intros H. unfold sanitize.
  rewrite strip_control_id by by apply forallb_trim.
  split; [done|apply trim_trimmed].
Qed.

Lemma strip_control_nil s : strip_control s = [] ↔ only_control s = true.
Proof.
  unfold strip_control, only_control. induction s as [|c s IH]; [done|].
  cbn [forallb]. destruct (is_control c) eqn:Hc.
  - rewrite filter_cons_False by congruence. by rewrite IH.
  - rewrite filter_cons_True by done. cbn. split; discriminate.
Qed.

(** The sanitizer returns the empty string exactly when what is left after
    trimming is made of control characters only. *)
Lemma sanitize_nil s : sanitize s = [] ↔ only_control (trim s) = true.
Proof. apply strip_control_nil. Qed.

Lemma trim_whitespace s : forallb is_whitespace s = true → trim s = [].
Proof.
  unfold trim. induction s as [|c s IH]; [done|]. cbn.
  intros [-> Hs]%andb_true_iff. auto.
Qed.

Lemma sanitize_whitespace s : forallb is_whitespace s = true → sanitize s = [].
Proof. intros H. unfold sanitize. by rewrite trim_whitespace. Qed.

Lemma sanitize_only_control s : only_control s = true → sanitize s = [].
Proof. intros H. by apply sanitize_nil, forallb_trim. Qed.

(** ** What the validators guarantee *)

Lemma optional_string_check v max :
  negb (is_undefined v) && (negb (typeof_is TString v) || (max <? length_of v)) = false →
  absent_or_string v (λ s, str_length s ≤ max).
Proof.
  destruct v; cbn; try discriminate; [by left|].
  intros H%Z.ltb_ge. right. eauto.
Qed.

Lemma optional_status_check v :
  negb (is_undefined v) && (negb (typeof_is TString v) || negb (isValidTaskStatus v)) = false →
  absent_or_string v (λ s, s ∈ VALID_TASK_STATUSES).
Proof.
  destruct v; cbn; try discriminate; [by left|].
  intros H%negb_false_iff%bool_decide_eq_true. right. eauto.
Qed.

Lemma isValidCreateTaskArgs_true args :
  isValidCreateTaskArgs args = true →
  absent_or_string (prop args (lit "title")) (λ s, str_length s ≤ MAX_TITLE_LENGTH)
  ∧ absent_or_string (prop args (lit "notes")) (λ s, str_length s ≤ MAX_NOTES_LENGTH)
  ∧ absent_or_string (prop args (lit "status")) (λ s, s ∈ VALID_TASK_STATUSES).
Proof.
  unfold isValidCreateTaskArgs. intros H.
  repeat case_match; try discriminate.
  auto using optional_string_check, optional_status_check.
Qed.

(** ** create_task *)

Lemma create_task_invalid args api w :
  isValidCreateTaskArgs args = false →
  ∃ msg, create_task args api w = (Throws (McpError InvalidParams msg), w).
Proof. intros H. unfold create_task. rewrite H. by eexists. Qed.

(** Past the validator, with a string title: the emptiness check, then the
    single insert. *)
Lemma create_task_valid args title api w :
  isValidCreateTaskArgs args = true →
  prop args (lit "title") = VString title →
  create_task args api w
  = if bool_decide (sanitize title = [])
    then (Throws (McpError InvalidParams
            (lit "Task title cannot be empty after sanitization.")), w)
    else try_catch
           (await_remote
              (TasksInsert default_tasklist (sanitize title) (notes_sent args)
                 (prop args (lit "status")))
            ≫= stringify_data)
           genericize api w.
Proof.
  intros Hv Ht. destruct (isValidCreateTaskArgs_true _ Hv) as (_ & Hn & _).
  unfold create_task, notes_sent. rewrite Hv, Ht.
  destruct Hn as [->|(notes & -> & _)].
  - cbn [truthy sanitizeString negb]. rewrite !bind_ret.
    by destruct (bool_decide (sanitize title = [])).
  - cbn [truthy sanitizeString negb].
    destruct (bool_decide (notes = [])); cbn [negb]; rewrite ?bind_assoc, !bind_ret;
      by destruct (bool_decide (sanitize title = [])).
Qed.

(** Without a title the validator still answers [true], and the sanitizer's
    own type check throws a plain [Error]. *)
Lemma create_task_missing_title args api w :
  isValidCreateTaskArgs args = true →
  prop args (lit "title") = VUndefined →
  create_task args api w
  = (Throws (Error (lit "Error") (lit "Input must be a string")), w).
Proof. intros Hv Ht. unfold create_task. by rewrite Hv, Ht. Qed.

Lemma local_stringify_data response : local (stringify_data response).
Proof. apply local_bind; [apply local_member|intros; apply local_ret]. Qed.

(** The only remote call [create_task] can make, and when. *)
Lemma create_task_calls args api req :
  req ∈ remote_calls (serve (CallTool (lit "create_task") args) api).2 →
  ∃ title,
    isValidCreateTaskArgs args = true
    ∧ prop args (lit "title") = VString title
    ∧ sanitize title ≠ []
    ∧ req = TasksInsert default_tasklist (sanitize title) (notes_sent args)
              (prop args (lit "status")).
Proof.
  unfold serve. cbn [handle]. rewrite call_tool_create.
  destruct (isValidCreateTaskArgs args) eqn:Hv.
  - destruct (isValidCreateTaskArgs_true _ Hv) as ([Ht|(title & Ht & _)] & _).
    + rewrite create_task_missing_title by done. cbn. set_solver.
    + rewrite (create_task_valid _ title) by done. case_bool_decide; [cbn; set_solver|].
      destruct (guarded_call (TasksInsert default_tasklist (sanitize title)
                  (notes_sent args) (prop args (lit "status")))
                  stringify_data api quiet local_stringify_data) as [-> _].
      cbn. intros ->%list_elem_of_singleton. eauto.
  - destruct (create_task_invalid args api quiet Hv) as [msg ->]. cbn. set_solver.
Qed.

(** Whatever [create_task] transmits went through the sanitizer: the title
    is non-empty, and title and notes hold no control character. *)
Lemma create_task_transmits_sanitized args api tasklist title notes status :
  TasksInsert tasklist title notes status
    ∈ remote_calls (serve (CallTool (lit "create_task") args) api).2 →
  title ≠ [] ∧ no_control title = true
  ∧ ∀ s, notes = Some s → no_control s = true.
Proof.
  intros (t & Hv & Ht & Hne & [= -> -> -> ->])%create_task_calls.
  split; [done|]. split; [apply sanitize_no_control|].
  unfold notes_sent. intros s. repeat case_match; intros [= <-].
  apply sanitize_no_control.
Qed.

(** A title that is empty, or empty once sanitized, is refused with
    [InvalidParams] and nothing is sent. *)
Lemma create_task_empty_title_rejected (fields : gmap jsstring jsval) title api :
  fields !! lit "title" = Some (VString title) →
  sanitize title = [] →
  ∃ msg, serve (CallTool (lit "create_task") (VObject fields)) api
         = (Throws (McpError InvalidParams msg), quiet).
Proof.
  intros Ht Hs. unfold serve. cbn [handle]. rewrite call_tool_create.
  destruct (isValidCreateTaskArgs (VObject fields)) eqn:Hv.
  - rewrite (create_task_valid _ title); [|done|by cbn; rewrite Ht].
    rewrite bool_decide_eq_true_2 by done. by eexists.
  - by apply create_task_invalid.
Qed.

(** C1. The transmitted title is not always trimmed: for the title
    [\x01], space, [a] the trim finds nothing to remove, the control
    character is then deleted, and the insert carries a title that starts
    with a space; likewise for notes. (No control character is ever sent:
    [create_task_transmits_sanitized].) *)
Theorem create_task_sends_untrimmed_title :
  (serve (CallTool (lit "create_task")
            (obj [(lit "title", VString ([1; 32]%N ++ lit "a"));
                  (lit "notes", VString (lit "b" ++ [32; 1]%N))]))
         echo_api).2
  = World [TasksInsert (lit "@default") (32%N :: lit "a") (Some (lit "b" ++ [32%N]))
             VUndefined] []
  ∧ leading_whitespace (32%N :: lit "a") = true
  ∧ trailing_whitespace (lit "b" ++ [32%N]) = true.
Proof. vm_compute. done. Qed.

(** C2. A [create_task] call without a [title] passes the validator and
    then fails inside [sanitizeString] with a plain [Error], not with an
    [McpError] of code [InvalidParams]; no remote call is made. *)
Theorem create_task_without_title_throws_plain_error (api : remote_api) :
  serve (CallTool (lit "create_task") (obj [])) api
  = (Throws (Error (lit "Error") (lit "Input must be a string")), quiet).
Proof. vm_compute. done. Qed.

(** C6. A title of more than 256 code units is refused with
    [InvalidParams], with no remote call and nothing logged. *)
Theorem create_task_long_title_rejected (fields : gmap jsstring jsval)
    (title : jsstring) (api : remote_api) :
  fields !! lit "title" = Some (VString title) →
  256 < str_length title →
  ∃ msg, serve (CallTool (lit "create_task") (VObject fields)) api
         = (Throws (McpError InvalidParams msg), quiet).
Proof.
  intros Ht Hlen. unfold serve. cbn [handle]. rewrite call_tool_create.
  apply create_task_invalid. unfold isValidCreateTaskArgs. cbn [prop]. rewrite Ht.
  cbn. unfold MAX_TITLE_LENGTH. by rewrite (proj2 (Z.ltb_lt _ _) Hlen).
Qed.

Lemma create_task_long_title_rejected_witness :
  ∃ msg, serve (CallTool (lit "create_task")
                  (VObject {[ lit "title" := VString (replicate 257 97%N) ]}))
               echo_api
         = (Throws (McpError InvalidParams msg), quiet).
Proof.
  apply (create_task_long_title_rejected _ (replicate 257 97%N)).
  - reflexivity.
  - vm_compute. reflexivity.
Defined.

(** C7. A title made only of whitespace and control characters is not
    always refused: [\x01], space, [\x01] survives the trim, loses its
    control characters, and is inserted as a single space. *)
Theorem create_task_blank_title_accepted :
  blank [1; 32; 1]%N = true
  ∧ serve (CallTool (lit "create_task") (obj [(lit "title", VString [1; 32; 1]%N)]))
          echo_api
    = (Returns (ToolContent (JSONstringify (obj [(lit "items", VArray [])]))),
       World [TasksInsert (lit "@default") [32%N] None VUndefined] []).
Proof. vm_compute. done. Qed.

(** Notes of whitespace only, and notes of control characters only, trim
    to a string of control characters. *)
Lemma uniform_notes_trim notes :
  forallb is_whitespace notes = true ∨ only_control notes = true →
  only_control (trim notes) = true.
Proof.
  intros [Hws|Hctl]; [by rewrite trim_whitespace|by apply forallb_trim].
Qed.

(** C10. Notes made only of whitespace and control characters are not
    always sent as the empty string: in [\x01], space, [\x01] the trim
    finds nothing to remove, the control characters are then deleted, and
    the insert carries a single space as notes. The same trim-before-strip
    order is behind C1 and C7. *)
Theorem create_task_blank_notes_sent_as_space :
  blank [1; 32; 1]%N = true
  ∧ serve (CallTool (lit "create_task")
             (obj [(lit "title", VString (lit "a"));
                   (lit "notes", VString [1; 32; 1]%N)]))
          echo_api
    = (Returns (ToolContent (JSONstringify (obj [(lit "items", VArray [])]))),
       World [TasksInsert (lit "@default") (lit "a") (Some [32%N]) VUndefined] []).
Proof. vm_compute. done. Qed.

(** The part of the notes handling that holds. For arguments that pass the
    validator and whose title is non-empty once sanitized, the insert is
    always issued, whatever the notes: with non-empty notes that the
    sanitizer empties (notes of whitespace only, or of control characters
    only, among them) it carries the empty string as notes; with notes
    absent or equal to the empty string it carries no notes. *)
Lemma create_task_notes_transmitted (fields : gmap jsstring jsval)
    (title : jsstring) (api : remote_api) :
  isValidCreateTaskArgs (VObject fields) = true →
  fields !! lit "title" = Some (VString title) →
  sanitize title ≠ [] →
  (∀ notes, fields !! lit "notes" = Some (VString notes) →
     notes ≠ [] → only_control (trim notes) = true →
     remote_calls (serve (CallTool (lit "create_task") (VObject fields)) api).2
     = [TasksInsert default_tasklist (sanitize title) (Some [])
          (prop (VObject fields) (lit "status"))])
  ∧ (fields !! lit "notes" = None ∨ fields !! lit "notes" = Some (VString []) →
     remote_calls (serve (CallTool (lit "create_task") (VObject fields)) api).2
     = [TasksInsert default_tasklist (sanitize title) None
          (prop (VObject fields) (lit "status"))]).
Proof.
  intros Hv Ht Hne.
  assert (remote_calls (serve (CallTool (lit "create_task") (VObject fields)) api).2
          = [TasksInsert default_tasklist (sanitize title) (notes_sent (VObject fields))
               (prop (VObject fields) (lit "status"))]) as ->.
  { unfold serve. cbn [handle]. rewrite call_tool_create.
    rewrite (create_task_valid _ title); [|done|by cbn; rewrite Ht].
    rewrite bool_decide_eq_false_2 by done.
    by destruct (guarded_call (TasksInsert default_tasklist (sanitize title)
                   (notes_sent (VObject fields)) (prop (VObject fields) (lit "status")))
                   stringify_data api quiet local_stringify_data) as [-> _]. }
  unfold notes_sent. cbn [prop]. split.
  - intros notes -> Hnotes Hctl%sanitize_nil. cbn.
    by rewrite bool_decide_eq_false_2, Hctl.
  - intros [->| ->]; done.
Qed.

Lemma create_task_notes_transmitted_witness :
  remote_calls
    (serve (CallTool (lit "create_task")
              (obj [(lit "title", VString (lit "a"));
                    (lit "notes", VString [32; 1; 9]%N)]))
           echo_api).2
  = [TasksInsert (lit "@default") (lit "a") (Some []) VUndefined].
Proof.
  refine (proj1 (create_task_notes_transmitted
                   (list_to_map [(lit "title", VString (lit "a"));
                                 (lit "notes", VString [32; 1; 9]%N)])
                   (lit "a") echo_api _ _ _)
                [32; 1; 9]%N _ _ _).
  - vm_compute. reflexivity.
  - vm_compute. reflexivity.
  - vm_compute. discriminate.
  - vm_compute. reflexivity.
  - discriminate.
  - vm_compute. reflexivity.
Defined.

(** ** delete_task *)

(** C8. A [delete_task] call whose [taskId] is the empty string, or a
    string the sanitizer reduces to the empty string, is refused with
    [InvalidParams]; no remote call is made and nothing is logged. *)
Theorem delete_task_empty_id_rejected (fields : gmap jsstring jsval)
    (taskId : jsstring) (api : remote_api) :
  fields !! lit "taskId" = Some (VString taskId) →
  taskId = [] ∨ sanitize taskId = [] →
  ∃ msg, serve (CallTool (lit "delete_task") (VObject fields)) api
         = (Throws (McpError InvalidParams msg), quiet).
Proof.
  intros Hid Hempty.
  assert (sanitize taskId = []) as Hs by (by destruct Hempty as [->|]).
  unfold serve. cbn [handle]. rewrite call_tool_delete. unfold delete_task.
  destruct (isValidDeleteTaskArgs (VObject fields)); cbn [negb]; [|by eexists].
  rewrite (prop_lookup _ _ _ Hid). cbn [sanitizeString]. rewrite bind_ret, Hs.
  by eexists.
Qed.

Lemma delete_task_empty_id_rejected_witness :
  ∃ msg, serve (CallTool (lit "delete_task") (obj [(lit "taskId", VString [32; 9; 32]%N)]))
               echo_api
         = (Throws (McpError InvalidParams msg), quiet).
Proof.
  refine (delete_task_empty_id_rejected
            (list_to_map [(lit "taskId", VString [32; 9; 32]%N)]) [32; 9; 32]%N
            echo_api _ _).
  - vm_compute. reflexivity.
  - right. vm_compute. reflexivity.
Defined.

(** ** complete_task and the status set *)

Lemma status_outside_set v :
  v ≠ VUndefined →
  v ≠ VString (lit "needsAction") →
  v ≠ VString (lit "completed") →
  negb (is_undefined v) && (negb (typeof_is TString v) || negb (isValidTaskStatus v)) = true.
Proof.
  intros Hu Hn Hc. destruct v as [| | | |s| |]; try done.
  cbn. rewrite bool_decide_eq_false_2; [done|].
  unfold VALID_TASK_STATUSES. rewrite !elem_of_cons, elem_of_nil.
  intros [->|[->|[]]]; done.
Qed.

Lemma isValidCreateTaskArgs_status args :
  negb (is_undefined (prop args (lit "status")))
  && (negb (typeof_is TString (prop args (lit "status")))
      || negb (isValidTaskStatus (prop args (lit "status")))) = true →
  isValidCreateTaskArgs args = false.
Proof. unfold isValidCreateTaskArgs. intros ->. by repeat case_match. Qed.

Lemma isValidCompleteTaskArgs_status args :
  negb (is_undefined (prop args (lit "status")))
  && (negb (typeof_is TString (prop args (lit "status")))
      || negb (isValidTaskStatus (prop args (lit "status")))) = true →
  isValidCompleteTaskArgs args = false.
Proof. unfold isValidCompleteTaskArgs. intros ->. by repeat case_match. Qed.

Lemma complete_task_invalid args api w :
  isValidCompleteTaskArgs args = false →
  ∃ msg, complete_task args api w = (Throws (McpError InvalidParams msg), w).
Proof. intros H. unfold complete_task. rewrite H. by eexists. Qed.

(** The only remote call [complete_task] can make. *)
Lemma complete_task_calls args api req :
  req ∈ remote_calls (serve (CallTool (lit "complete_task") args) api).2 →
  ∃ taskId,
    prop args (lit "taskId") = VString taskId
    ∧ req = TasksPatch default_tasklist (sanitize taskId)
              (js_or (prop args (lit "status")) (VString (lit "completed")))
    ∧ isValidTaskStatus (js_or (prop args (lit "status")) (VString (lit "completed")))
      = true.
Proof.
  unfold serve. cbn [handle]. rewrite call_tool_complete. unfold complete_task.
  destruct (isValidCompleteTaskArgs args); cbn [negb]; [|cbn; set_solver].
  destruct (prop args (lit "taskId")) as [| | | |taskId| |];
    cbn [sanitizeString]; rewrite ?bind_throw, ?bind_ret; try (cbn; set_solver).
  destruct (truthy (VString (sanitize taskId))); cbn [negb]; [|cbn; set_solver].
  destruct (isValidTaskStatus _) eqn:Hst; cbn [negb]; [|cbn; set_solver].
  destruct (guarded_call (TasksPatch default_tasklist (sanitize taskId)
              (js_or (prop args (lit "status")) (VString (lit "completed"))))
              stringify_data api quiet local_stringify_data) as [Hcalls _].
  unfold stringify_data in Hcalls. rewrite Hcalls.
  cbn. intros ->%list_elem_of_singleton. eauto.
Qed.

(** C4. A [create_task] or [complete_task] call that carries a [status]
    other than the strings [needsAction] and [completed] (the empty
    string, any other string, or a value that is not a string) is refused
    with [InvalidParams] before any remote call; and when [complete_task]
    carries no [status], the value it sends in its place is [completed],
    a member of the set. *)
Theorem status_outside_set_rejected (name : jsstring)
    (fields : gmap jsstring jsval) (api : remote_api) :
  name = lit "create_task" ∨ name = lit "complete_task" →
  (∀ status,
     fields !! lit "status" = Some status →
     status ≠ VUndefined →
     status ≠ VString (lit "needsAction") →
     status ≠ VString (lit "completed") →
     ∃ msg, serve (CallTool name (VObject fields)) api
            = (Throws (McpError InvalidParams msg), quiet))
  ∧ (name = lit "complete_task" →
     fields !! lit "status" = None →
     ∀ req, req ∈ remote_calls (serve (CallTool name (VObject fields)) api).2 →
       ∃ task, req = TasksPatch default_tasklist task (VString (lit "completed"))
               ∧ lit "completed" ∈ VALID_TASK_STATUSES).
Proof.
  intros Hname. split.
  - intros status Hst Hu Hn Hc. pose proof (status_outside_set _ Hu Hn Hc) as Hbad.
    rewrite <- (prop_lookup _ _ _ Hst) in Hbad. unfold serve. cbn [handle].
    destruct Hname as [Hcreate | Hcomplete]; subst name.
    + rewrite call_tool_create. by apply create_task_invalid, isValidCreateTaskArgs_status.
    + rewrite call_tool_complete.
      by apply complete_task_invalid, isValidCompleteTaskArgs_status.
  - clear Hname. intros -> Hst req (taskId & _ & -> & Hvalid)%complete_task_calls.
    rewrite (prop_absent _ _ Hst). cbn [js_or truthy]. eexists. split; [done|].
    unfold VALID_TASK_STATUSES. set_solver.
Qed.

Lemma status_outside_set_rejected_witness :
  ∃ msg, serve (CallTool (lit "complete_task")
                  (obj [(lit "taskId", VString (lit "t1")); (lit "status", VString [])]))
               echo_api
         = (Throws (McpError InvalidParams msg), quiet).
Proof.
  refine (proj1 (status_outside_set_rejected (lit "complete_task")
                   (list_to_map [(lit "taskId", VString (lit "t1"));
                                 (lit "status", VString [])])
                   echo_api _)
                (VString []) _ _ _ _).
  - right. reflexivity.
  - vm_compute. reflexivity.
  - discriminate.
  - vm_compute. discriminate.
  - vm_compute. discriminate.
Defined.

(** C5. [complete_task] without a [status] and [complete_task] with
    [status] equal to [completed] are the same computation: against the
    same remote service they make the same call, return or throw the
    same value and log the same lines. *)
Theorem complete_task_default_is_completed (fields : gmap jsstring jsval)
    (api : remote_api) :
  serve (CallTool (lit "complete_task") (VObject (delete (lit "status") fields))) api
  = serve (CallTool (lit "complete_task")
             (VObject (<[lit "status" := VString (lit "completed")]> fields))) api.
Proof.
  assert (lit "status" ≠ lit "taskId") as Hne by (vm_compute; discriminate).
  unfold serve. cbn [handle].
  change (complete_task (VObject (delete (lit "status") fields)) api quiet
          = complete_task
              (VObject (<[lit "status" := VString (lit "completed")]> fields)) api quiet).
  unfold complete_task, isValidCompleteTaskArgs.
  rewrite !prop_delete_eq, !prop_insert_eq, !prop_delete_ne, !prop_insert_ne by done.
  reflexivity.
Qed.

(** C9. A tool name other than the four known ones yields the
    [MethodNotFound] error; the arguments are not looked at, no remote
    call is issued and nothing is logged. *)
Theorem unknown_tool_method_not_found (name : jsstring) (arguments : jsval)
    (api : remote_api) :
  name ∉ [lit "list_tasks"; lit "create_task"; lit "delete_task"; lit "complete_task"] →
  serve (CallTool name arguments) api
  = (Throws (McpError MethodNotFound (lit "Unknown tool: " ++ name)), quiet).
Proof.
  rewrite !not_elem_of_cons. intros (? & ? & ? & ? & _).
  unfold serve. cbn [handle]. unfold call_tool.
  by rewrite !bool_decide_eq_false_2.
Qed.

Lemma unknown_tool_method_not_found_witness :
  serve (CallTool (lit "update_task") (obj [(lit "taskId", VNumber 7)])) echo_api
  = (Throws (McpError MethodNotFound (lit "Unknown tool: update_task")), quiet).
Proof.
  apply (unknown_tool_method_not_found (lit "update_task")).
  rewrite !not_elem_of_cons.
  repeat split; try (vm_compute; discriminate). apply not_elem_of_nil.
Defined.

(** * Further properties of the module *)

(** ** The sanitizer *)

Lemma trimStart_sublist s : trimStart s `sublist_of` s.
Proof.
  induction s as [|c s IH]; [done|]. cbn.
  destruct (is_whitespace c); [by apply sublist_cons|done].
Qed.

Lemma trimEnd_sublist s : trimEnd s `sublist_of` s.
Proof.
  induction s as [|c s IH]; [done|]. cbn. destruct (trimEnd s) as [|d t].
  - destruct (is_whitespace c); [apply sublist_nil_l|].
    by apply sublist_skip.
  - by apply sublist_skip.
Qed.

Lemma sanitize_sublist s : sanitize s `sublist_of` s.
Proof.
  unfold sanitize, strip_control, trim.
  etrans; [apply sublist_filter|]. etrans; [apply trimEnd_sublist|].
  apply trimStart_sublist.
Qed.

Lemma sanitize_length s : str_length (sanitize s) ≤ str_length s.
Proof. unfold str_length. pose proof (sublist_length _ _ (sanitize_sublist s)). lia. Qed.

(** X1. The sanitizer only deletes: its result is the input with some code
    units removed, in the same order, and so is never longer. *)
Theorem sanitize_only_deletes (s : jsstring) :
  sanitize s `sublist_of` s ∧ str_length (sanitize s) ≤ str_length s.
Proof. split; [apply sanitize_sublist|apply sanitize_length]. Qed.

Lemma trimStart_id s : leading_whitespace s = false → trimStart s = s.
Proof. destruct s as [|c s]; [done|]. cbn. by intros ->. Qed.

Lemma trimEnd_id s : trailing_whitespace s = false → trimEnd s = s.
Proof.
  unfold trailing_whitespace. induction s as [|c s IH]; [done|].
  destruct s as [|d t].
  - cbn. by intros ->.
  - rewrite last_cons. intros H.
    assert (last (d :: t) ≠ None) as Hl by (by intros ?%last_None).
    destruct (last (d :: t)) as [x|] eqn:Hx; [|done].
    change (trimEnd (c :: d :: t)) with
      (match trimEnd (d :: t) with
       | [] => if is_whitespace c then [] else [c]
       | u => c :: u
       end).
    by rewrite IH.
Qed.

Lemma trim_id s :
  leading_whitespace s = false → trailing_whitespace s = false → trim s = s.
Proof. intros Hl Ht. unfold trim. rewrite (trimStart_id _ Hl). by apply trimEnd_id. Qed.

(** X2. One pass of the sanitizer may leave whitespace at the ends; a second
    pass removes it, and from then on the sanitizer changes nothing: the
    twice-sanitized string is trimmed, free of control characters, and a
    fixed point. *)
Theorem sanitize_twice_is_stable (s : jsstring) :
  leading_whitespace (sanitize (sanitize s)) = false
  ∧ trailing_whitespace (sanitize (sanitize s)) = false
  ∧ no_control (sanitize (sanitize s)) = true
  ∧ sanitize (sanitize (sanitize s)) = sanitize (sanitize s).
Proof.
  destruct (sanitize_trimmed_without_control _ (sanitize_no_control s))
    as (Heq & Hl & Ht).
  repeat split; [done|done|apply sanitize_no_control|].
  destruct (sanitize_trimmed_without_control _ (sanitize_no_control (sanitize s)))
    as (-> & _ & _).
  by apply trim_id.
Qed.

(** ** The handlers, stage by stage *)

Lemma pure_ret {A} (a : A) : pure_step (mret a).
Proof. by eexists. Qed.

Lemma pure_throw {A} e : pure_step (@throw A e).
Proof. by eexists. Qed.

Lemma pure_member v k : pure_step (member v k).
Proof. destruct v; by eexists. Qed.

Lemma pure_bind {A B} (m : M A) (k : A → M B) :
  pure_step m → (∀ a, pure_step (k a)) → pure_step (m ≫= k).
Proof.
  intros [[a|e] Hm] Hk.
  - destruct (Hk a) as [o Ho]. exists o. intros api w.
    unfold mbind, M_bind. by rewrite Hm, Ho.
  - exists (Throws e). intros api w. unfold mbind, M_bind. by rewrite Hm.
Qed.

Ltac staged_leaf :=
  first
    [ left; eexists; split; [| intros; reflexivity]; reflexivity
    | right; eexists _, _; split; [| intros; reflexivity];
      intros ?; repeat (apply pure_bind; [| intros ?]); cbv beta;
      auto using pure_member, pure_ret ].

Lemma staged_mono {A} (P Q : thrown → bool) (m : M A) :
  (∀ e, P e = true → Q e = true) → staged P m → staged Q m.
Proof. intros HPQ [(e & He & Hm)|H]; [left; eauto|by right]. Qed.

Lemma staged_bind_ret {A B} P (a : A) (k : A → M B) :
  staged P (k a) → staged P (mret a ≫= k).
Proof. exact id. Qed.

Lemma staged_bind_throw {A B} (P : thrown → bool) e (k : A → M B) :
  P e = true → staged P (throw e ≫= k).
Proof. intros H. left. by exists e. Qed.

Ltac staged_step :=
  cbn [sanitizeString negb];
  first [ by apply staged_bind_throw | apply staged_bind_ret ].

Lemma list_tasks_staged : staged argument_error list_tasks.
Proof. unfold list_tasks. staged_leaf. Qed.

Lemma read_resource_staged uri : staged is_invalid_request (read_resource uri).
Proof. unfold read_resource. case_bool_decide; cbn [negb]; staged_leaf. Qed.

Lemma create_task_staged args : staged argument_error (create_task args).
Proof.
  unfold create_task. destruct (isValidCreateTaskArgs args); cbn [negb]; [|staged_leaf].
  destruct (prop args (lit "title")) as [| | | |title| |]; staged_step.
  destruct (truthy (prop args (lit "notes"))).
  - destruct (prop args (lit "notes")) as [| | | |notes| |]; staged_step.
    destruct (truthy (VString (sanitize title))); staged_leaf.
  - destruct (truthy (VString (sanitize title))); staged_leaf.
Qed.

Lemma delete_task_staged args : staged argument_error (delete_task args).
Proof.
  unfold delete_task. destruct (isValidDeleteTaskArgs args); cbn [negb]; [|staged_leaf].
  destruct (prop args (lit "taskId")) as [| | | |taskId| |]; staged_step.
  destruct (truthy (VString (sanitize taskId))); staged_leaf.
Qed.

Lemma complete_task_staged args : staged argument_error (complete_task args).
Proof.
  unfold complete_task. destruct (isValidCompleteTaskArgs args); cbn [negb]; [|staged_leaf].
  destruct (prop args (lit "taskId")) as [| | | |taskId| |]; staged_step.
  destruct (truthy (VString (sanitize taskId))); [|staged_leaf].
  destruct (isValidTaskStatus _); staged_leaf.
Qed.

Lemma listed_tool_names :
  t_name <$> list_tools
  = [lit "create_task"; lit "list_tasks"; lit "delete_task"; lit "complete_task"].
Proof. reflexivity. Qed.

(** A known tool name selects its handler; any other name is refused. *)
Lemma call_tool_staged name args :
  (name ∈ (t_name <$> list_tools) ∧ staged argument_error (call_tool name args))
  ∨ ((name ∉ (t_name <$> list_tools))
     ∧ (∀ api w, call_tool name args api w
                 = (Throws (McpError MethodNotFound (lit "Unknown tool: " ++ name)), w))).
Proof.
  rewrite listed_tool_names, !not_elem_of_cons, !elem_of_cons.
  unfold call_tool. repeat case_bool_decide.
  1-4: left; split;
    [ tauto
    | auto using list_tasks_staged, create_task_staged, delete_task_staged,
        complete_task_staged ].
  right. split; [|done]. repeat split; try done. apply not_elem_of_nil.
Qed.

Lemma handle_staged rq : staged (λ e, negb (is_internal_error e)) (handle rq).
Proof.
  destruct rq as [name args|uri]; cbn [handle].
  - destruct (call_tool_staged name args) as [[_ H]|[_ H]].
    + eapply staged_mono; [|done]. by intros [[]| |].
    + left. eexists. split; [|exact H]. reflexivity.
  - eapply staged_mono; [|apply read_resource_staged]. by intros [[]| |].
Qed.

(** What the guarded call computes, case by case. *)
Lemma guarded_call_run {A} req (k : jsval → M A) api w :
  (∀ r, pure_step (k r)) →
  let w' := World (remote_calls w ++ [req]) (stderr w) in
  try_catch (await_remote req ≫= k) genericize api w
  = match api req with
    | Resolves response =>
        match (k response api quiet).1 with
        | Returns a => (Returns a, w')
        | Throws e => genericize e api w'
        end
    | Rejects e => genericize e api w'
    end.
Proof.
  intros Hk w'. unfold try_catch, mbind, M_bind, await_remote. fold w'.
  destruct (api req) as [response|e]; [|done].
  destruct (Hk response) as [o Ho]. rewrite !Ho. by destruct o.
Qed.

(** The three ways a staged computation ends. *)
Lemma staged_run {A} P (m : M A) api w :
  staged P m →
  (∃ e, P e = true ∧ m api w = (Throws e, w))
  ∨ (∃ req r a, api req = Resolves r
       ∧ m api w = (Returns a, World (remote_calls w ++ [req]) (stderr w)))
  ∨ (∃ req e, (api req = Rejects e ∨ ∃ r, api req = Resolves r)
       ∧ m api w
         = (Throws (McpError InternalError (generic_message e)),
            World (remote_calls w ++ [req])
              (if instanceof_Error e then stderr w ++ [FullErrorDetails e]
               else stderr w))).
Proof.
  intros [(e & He & Hm)|(req & k & Hk & Hm)]; [left; eauto|right].
  rewrite Hm, guarded_call_run by done.
  destruct (api req) as [r|e] eqn:Hreq.
  - destruct ((k r api quiet).1) as [a|e].
    + left. eauto.
    + right. exists req, e. rewrite genericize_run. eauto.
  - right. exists req, e. rewrite genericize_run. eauto.
Qed.

(** X3. Nothing is answered locally: a success payload always comes from one
    remote call that resolved, and a success writes nothing to the log. *)
Theorem success_comes_from_remote (rq : request) (api : remote_api) (a : reply) :
  (serve rq api).1 = Returns a →
  ∃ req r, api req = Resolves r ∧ (serve rq api).2 = World [req] [].
Proof.
  unfold serve.
  destruct (staged_run _ _ api quiet (handle_staged rq))
    as [(e & _ & ->)|[(req & r & b & Hreq & ->)|(req & e & _ & ->)]];
    cbn; [discriminate| |discriminate].
  eauto.
Qed.

Lemma success_comes_from_remote_witness :
  ∃ req r, echo_api req = Resolves r
           ∧ (serve (CallTool (lit "list_tasks") VUndefined) echo_api).2 = World [req] [].
Proof.
  refine (success_comes_from_remote (CallTool (lit "list_tasks") VUndefined) echo_api
            (ToolContent (JSONstringify (VArray []))) _).
  vm_compute. reflexivity.
Defined.

(** X4. The kind of error tells whether the remote service was contacted: an
    [InternalError] is thrown only after a remote call, with one of the two
    fixed messages; every other error is thrown before any remote call and
    leaves neither a call nor a log line behind. *)
Theorem error_kind_tells_remote_contact (rq : request) (api : remote_api) (e : thrown) :
  (serve rq api).1 = Throws e →
  (is_internal_error e = true
   ∧ (∃ req, remote_calls (serve rq api).2 = [req])
   ∧ (e = McpError InternalError (lit "An error occurred while processing your request")
      ∨ e = McpError InternalError (lit "Unknown error occurred")))
  ∨ (is_internal_error e = false ∧ (serve rq api).2 = quiet).
Proof.
  unfold serve.
  destruct (staged_run _ _ api quiet (handle_staged rq))
    as [(e0 & He0 & ->)|[(req & r & b & Hreq & ->)|(req & e0 & _ & ->)]];
    cbn; intros [= <-].
  - right. by apply negb_true_iff in He0.
  - left. split; [done|]. split; [eauto|].
    unfold generic_message. destruct (instanceof_Error e0); auto.
Qed.

Lemma error_kind_tells_remote_contact_witness :
  (serve (CallTool (lit "delete_task") (obj [])) echo_api).2 = quiet.
Proof.
  destruct (error_kind_tells_remote_contact
              (CallTool (lit "delete_task") (obj [])) echo_api
              (McpError InvalidParams
                 (lit "Invalid arguments for deleting a task. 'taskId' must be a non-empty string.")))
    as [(H & _)|(_ & H)].
  - vm_compute. reflexivity.
  - discriminate H.
  - exact H.
Defined.

(** X5. A remote failure is written to the log exactly once, in full, when the
    thrown value is an [Error]; a rejection with any other value is not
    logged at all. *)
Theorem remote_failure_logging (rq : request) (api : remote_api)
    (req : remote_request) (e : thrown) :
  req ∈ remote_calls (serve rq api).2 →
  api req = Rejects e →
  stderr (serve rq api).2 = if instanceof_Error e then [FullErrorDetails e] else [].
Proof.
  unfold serve.
  destruct (staged_run _ _ api quiet (handle_staged rq))
    as [(e0 & _ & ->)|[(req0 & r & b & Hreq & ->)|(req0 & e0 & Hreq & ->)]];
    cbn; intros Hin Hrej.
  - set_solver.
  - apply list_elem_of_singleton in Hin as ->. congruence.
  - apply list_elem_of_singleton in Hin as ->.
    destruct Hreq as [Hreq|[r Hreq]]; [|congruence].
    rewrite Hrej in Hreq. by injection Hreq as <-.
Qed.

Lemma remote_failure_logging_witness :
  stderr (serve (ReadResource (lit "tasks://default"))
            (failing_api (NonError (VString (lit "quota exceeded"))))).2
  = [].
Proof.
  apply (remote_failure_logging (ReadResource (lit "tasks://default"))
           (failing_api (NonError (VString (lit "quota exceeded"))))
           (TasksList (lit "@default")) (NonError (VString (lit "quota exceeded")))).
  - vm_compute. apply list_elem_of_here.
  - reflexivity.
Defined.

(** ** Which arguments reach the remote service *)

Lemma optional_string_iff v max :
  negb (is_undefined v) && (negb (typeof_is TString v) || (max <? length_of v)) = false
  ↔ absent_or_string v (λ s, str_length s ≤ max).
Proof.
  split; [apply optional_string_check|].
  intros [->|(s & -> & Hs)]; [done|]. cbn. by apply Z.ltb_ge.
Qed.

Lemma optional_status_iff v :
  negb (is_undefined v) && (negb (typeof_is TString v) || negb (isValidTaskStatus v)) = false
  ↔ absent_or_string v (λ s, s ∈ VALID_TASK_STATUSES).
Proof.
  split; [apply optional_status_check|].
  intros [->|(s & -> & Hs)]; [done|]. cbn. by rewrite bool_decide_eq_true_2.
Qed.

Lemma isValidCreateTaskArgs_object (fields : gmap jsstring jsval) :
  isValidCreateTaskArgs (VObject fields) = true
  ↔ absent_or_string (prop (VObject fields) (lit "title"))
      (λ s, str_length s ≤ MAX_TITLE_LENGTH)
    ∧ absent_or_string (prop (VObject fields) (lit "notes"))
        (λ s, str_length s ≤ MAX_NOTES_LENGTH)
    ∧ absent_or_string (prop (VObject fields) (lit "taskId"))
        (λ s, str_length s ≤ MAX_TASK_ID_LENGTH)
    ∧ absent_or_string (prop (VObject fields) (lit "status"))
        (λ s, s ∈ VALID_TASK_STATUSES).
Proof.
  rewrite <- !optional_string_iff, <- optional_status_iff.
  unfold isValidCreateTaskArgs. cbn [typeof_is typeof is_null negb orb].
  repeat match goal with |- context [if ?b then false else _] => destruct b end;
    intuition congruence.
Qed.

Lemma string_prop_object args k s :
  prop args k = VString s → ∃ fields, args = VObject fields.
Proof. destruct args; try discriminate. eauto. Qed.

Lemma str_length_nonneg (s : jsstring) : 0 ≤ str_length s ∧ (str_length s = 0 → s = []).
Proof. unfold str_length. split; [lia|]. destruct s; [done|cbn; lia]. Qed.

Lemma sanitize_nonempty_input s : sanitize s ≠ [] → 0 < str_length s.
Proof. destruct s; [done|]. unfold str_length. cbn. lia. Qed.

Lemma create_task_calls_iff (args : jsval) (api : remote_api)
    (req : remote_request) :
  req ∈ remote_calls (serve (CallTool (lit "create_task") args) api).2
  ↔ ∃ title,
      prop args (lit "title") = VString title
      ∧ str_length title ≤ 256
      ∧ sanitize title ≠ []
      ∧ absent_or_string (prop args (lit "notes")) (λ s, str_length s ≤ 8192)
      ∧ absent_or_string (prop args (lit "taskId")) (λ s, str_length s ≤ 256)
      ∧ absent_or_string (prop args (lit "status")) (λ s, s ∈ VALID_TASK_STATUSES)
      ∧ req = TasksInsert (lit "@default") (sanitize title) (notes_sent args)
                (prop args (lit "status")).
Proof.
  split.
  - intros (title & Hv & Ht & Hne & ->)%create_task_calls. exists title.
    destruct (string_prop_object _ _ _ Ht) as [fields ->].
    apply isValidCreateTaskArgs_object in Hv as ([Hu|(t & Ht' & Hlen)] & Hn & Hi & Hs);
      [congruence|].
    rewrite Ht in Ht'. injection Ht' as <-. done.
  - intros (title & Ht & Hlen & Hne & Hn & Hi & Hs & ->).
    destruct (string_prop_object _ _ _ Ht) as [fields ->].
    assert (isValidCreateTaskArgs (VObject fields) = true) as Hv.
    { apply isValidCreateTaskArgs_object. repeat split; try done. right. eauto. }
    unfold serve. cbn [handle]. rewrite call_tool_create.
    rewrite (create_task_valid _ title) by done.
    rewrite bool_decide_eq_false_2 by done.
    destruct (guarded_call (TasksInsert default_tasklist (sanitize title)
                (notes_sent (VObject fields)) (prop (VObject fields) (lit "status")))
                stringify_data api quiet local_stringify_data) as [-> _].
    cbn. apply list_elem_of_here.
Qed.

Lemma isValidDeleteTaskArgs_iff args :
  isValidDeleteTaskArgs args = true
  ↔ ∃ taskId, prop args (lit "taskId") = VString taskId
              ∧ 0 < str_length taskId ≤ MAX_TASK_ID_LENGTH.
Proof.
  unfold isValidDeleteTaskArgs. rewrite !andb_true_iff. split.
  - intros ((((_ & _) & Hs) & Hpos) & Hmax).
    destruct (prop args (lit "taskId")) as [| | | |taskId| |]; try discriminate.
    exists taskId. cbn in *. split; [done|]. lia.
  - intros (taskId & Hid & Hlen).
    destruct (string_prop_object _ _ _ Hid) as [fields ->]. rewrite Hid. cbn.
    repeat split; lia.
Qed.

Lemma delete_task_valid args taskId api w :
  isValidDeleteTaskArgs args = true →
  prop args (lit "taskId") = VString taskId →
  delete_task args api w
  = if bool_decide (sanitize taskId = [])
    then (Throws (McpError InvalidParams
            (lit "Task ID cannot be empty after sanitization.")), w)
    else try_catch
           (await_remote (TasksDelete default_tasklist (sanitize taskId))
            ≫= λ _, mret (ToolContent (Literal (lit "Task deleted successfully."))))
           genericize api w.
Proof.
  intros Hv Hid. unfold delete_task. rewrite Hv, Hid.
  cbn [negb sanitizeString truthy]. rewrite bind_ret.
  by destruct (bool_decide (sanitize taskId = [])).
Qed.

Lemma delete_task_calls_iff (args : jsval) (api : remote_api)
    (req : remote_request) :
  req ∈ remote_calls (serve (CallTool (lit "delete_task") args) api).2
  ↔ ∃ taskId,
      prop args (lit "taskId") = VString taskId
      ∧ str_length taskId ≤ 256
      ∧ sanitize taskId ≠ []
      ∧ req = TasksDelete (lit "@default") (sanitize taskId).
Proof.
  unfold serve. cbn [handle]. rewrite call_tool_delete.
  destruct (isValidDeleteTaskArgs args) eqn:Hv.
  - pose proof Hv as (taskId & Hid & Hlen)%isValidDeleteTaskArgs_iff.
    rewrite (delete_task_valid _ taskId) by done.
    case_bool_decide as Hs.
    + cbn. split; [set_solver|]. intros (t & Ht & _ & Hne & _).
      rewrite Hid in Ht. injection Ht as <-. done.
    + destruct (guarded_call (TasksDelete default_tasklist (sanitize taskId))
                  (λ _, mret (ToolContent (Literal (lit "Task deleted successfully."))))
                  api quiet (λ _, local_ret _)) as [-> _].
      cbn. rewrite list_elem_of_singleton. split.
      * intros ->. exists taskId. unfold MAX_TASK_ID_LENGTH in Hlen.
        repeat split; [done|lia|done].
      * intros (t & Ht & _ & _ & ->). rewrite Hid in Ht. by injection Ht as <-.
  - unfold delete_task. rewrite Hv. cbn. split; [set_solver|].
    intros (taskId & Hid & Hlen & Hne & _).
    apply not_true_iff_false in Hv. destruct Hv.
    apply isValidDeleteTaskArgs_iff. exists taskId. split; [done|].
    pose proof (sanitize_nonempty_input _ Hne). unfold MAX_TASK_ID_LENGTH. lia.
Qed.

Lemma isValidCompleteTaskArgs_iff args :
  isValidCompleteTaskArgs args = true
  ↔ ∃ taskId, prop args (lit "taskId") = VString taskId
              ∧ 0 < str_length taskId ≤ MAX_TASK_ID_LENGTH
              ∧ absent_or_string (prop args (lit "status")) (λ s, s ∈ VALID_TASK_STATUSES).
Proof.
  setoid_rewrite <- optional_status_iff. unfold isValidCompleteTaskArgs. split.
  - intros H. repeat case_match; try discriminate.
    destruct (prop args (lit "taskId")) as [| | | |taskId| |]; try discriminate.
    exists taskId. cbn in *.
    match goal with H : _ || _ = false |- _ =>
      apply orb_false_iff in H as [?%Z.eqb_neq ?%Z.ltb_ge] end.
    destruct (str_length_nonneg taskId). repeat split; [lia|lia].
  - intros (taskId & Hid & Hlen & Hst).
    destruct (string_prop_object _ _ _ Hid) as [fields ->]. rewrite Hid, Hst. cbn.
    rewrite (proj2 (Z.eqb_neq _ _)), (proj2 (Z.ltb_ge _ _)) by lia. done.
Qed.

(** Once the validator has accepted the arguments, the status that will be
    sent is one of the two names. *)
Lemma defaulted_status_valid v :
  absent_or_string v (λ s, s ∈ VALID_TASK_STATUSES) →
  isValidTaskStatus (js_or v (VString (lit "completed"))) = true.
Proof.
  intros [->|(s & -> & Hs)]; [done|]. unfold js_or.
  assert (s ≠ []) as Hne.
  { intros ->. unfold VALID_TASK_STATUSES in Hs.
    rewrite !elem_of_cons, elem_of_nil in Hs. by destruct Hs as [?|[?|[]]]. }
  cbn. rewrite (bool_decide_eq_false_2 _ Hne). cbn. by apply bool_decide_eq_true_2.
Qed.

Lemma complete_task_valid args taskId api w :
  isValidCompleteTaskArgs args = true →
  prop args (lit "taskId") = VString taskId →
  complete_task args api w
  = if bool_decide (sanitize taskId = [])
    then (Throws (McpError InvalidParams
            (lit "Task ID cannot be empty after sanitization.")), w)
    else try_catch
           (await_remote
              (TasksPatch default_tasklist (sanitize taskId)
                 (js_or (prop args (lit "status")) (VString (lit "completed"))))
            ≫= stringify_data)
           genericize api w.
Proof.
  intros Hv Hid. pose proof Hv as (t & _ & _ & Hst)%isValidCompleteTaskArgs_iff.
  unfold complete_task. rewrite Hv, Hid.
  cbn [negb sanitizeString truthy]. rewrite bind_ret.
  rewrite (defaulted_status_valid _ Hst).
  by destruct (bool_decide (sanitize taskId = [])).
Qed.

Lemma complete_task_calls_iff (args : jsval) (api : remote_api)
    (req : remote_request) :
  req ∈ remote_calls (serve (CallTool (lit "complete_task") args) api).2
  ↔ ∃ taskId,
      prop args (lit "taskId") = VString taskId
      ∧ str_length taskId ≤ 256
      ∧ sanitize taskId ≠ []
      ∧ absent_or_string (prop args (lit "status")) (λ s, s ∈ VALID_TASK_STATUSES)
      ∧ req = TasksPatch (lit "@default") (sanitize taskId)
                (js_or (prop args (lit "status")) (VString (lit "completed"))).
Proof.
  unfold serve. cbn [handle]. rewrite call_tool_complete.
  destruct (isValidCompleteTaskArgs args) eqn:Hv.
  - pose proof Hv as (taskId & Hid & Hlen & Hst)%isValidCompleteTaskArgs_iff.
    rewrite (complete_task_valid _ taskId) by done.
    case_bool_decide as Hs.
    + cbn. split; [set_solver|]. intros (t & Ht & _ & Hne & _).
      rewrite Hid in Ht. injection Ht as <-. done.
    + destruct (guarded_call (TasksPatch default_tasklist (sanitize taskId)
                  (js_or (prop args (lit "status")) (VString (lit "completed"))))
                  stringify_data api quiet local_stringify_data) as [-> _].
      cbn. rewrite list_elem_of_singleton. split.
      * intros ->. exists taskId. unfold MAX_TASK_ID_LENGTH in Hlen.
        repeat split; [done|lia|done|done].
      * intros (t & Ht & _ & _ & _ & ->). rewrite Hid in Ht. by injection Ht as <-.
  - unfold complete_task. rewrite Hv. cbn. split; [set_solver|].
    intros (taskId & Hid & Hlen & Hne & Hst & _).
    apply not_true_iff_false in Hv. destruct Hv.
    apply isValidCompleteTaskArgs_iff. exists taskId. split; [done|].
    pose proof (sanitize_nonempty_input _ Hne). unfold MAX_TASK_ID_LENGTH.
    split; [lia|done].
Qed.

(** X8. [complete_task] refuses arguments with one of two messages only; the
    message of its second status check is never produced, because every
    status that passes the validator, and the default, pass that check
    too. *)
Theorem complete_task_invalid_params_messages (args : jsval) (api : remote_api)
    (w : world) (message : jsstring) :
  (complete_task args api w).1 = Throws (McpError InvalidParams message) →
  (message = lit "Invalid arguments for completing a task. 'taskId' must be a non-empty string and 'status' must be 'needsAction' or 'completed'."
   ∨ message = lit "Task ID cannot be empty after sanitization.")
  ∧ message ≠ lit "Invalid task status. Must be 'needsAction' or 'completed'.".
Proof.
  assert (∀ m : jsstring,
    m = lit "Invalid arguments for completing a task. 'taskId' must be a non-empty string and 'status' must be 'needsAction' or 'completed'."
    ∨ m = lit "Task ID cannot be empty after sanitization." →
    m ≠ lit "Invalid task status. Must be 'needsAction' or 'completed'.") as Hother.
  { intros m [-> | ->]; vm_compute; discriminate. }
  intros Hout. cut (message = lit "Invalid arguments for completing a task. 'taskId' must be a non-empty string and 'status' must be 'needsAction' or 'completed'."
                    ∨ message = lit "Task ID cannot be empty after sanitization.");
    [by auto|].
  revert Hout. destruct (isValidCompleteTaskArgs args) eqn:Hv.
  - pose proof Hv as (taskId & Hid & _)%isValidCompleteTaskArgs_iff.
    rewrite (complete_task_valid _ taskId) by done.
    case_bool_decide; [cbn; intros [= <-]; by right|].
    rewrite guarded_call_run.
    2:{ intros r. apply pure_bind; [apply pure_member|intros; apply pure_ret]. }
    destruct (api _) as [r|e]; [destruct ((stringify_data r api quiet).1)|];
      rewrite ?genericize_run; cbn; discriminate.
  - unfold complete_task. rewrite Hv. cbn. intros [= <-]. by left.
Qed.

Lemma complete_task_invalid_params_messages_witness :
  (lit "Task ID cannot be empty after sanitization."
   = lit "Invalid arguments for completing a task. 'taskId' must be a non-empty string and 'status' must be 'needsAction' or 'completed'."
   ∨ lit "Task ID cannot be empty after sanitization."
     = lit "Task ID cannot be empty after sanitization.")
  ∧ lit "Task ID cannot be empty after sanitization."
    ≠ lit "Invalid task status. Must be 'needsAction' or 'completed'.".
Proof.
  apply (complete_task_invalid_params_messages
           (obj [(lit "taskId", VString [32; 1]%N)]) echo_api quiet).
  vm_compute. reflexivity.
Defined.

(** X9. [create_task] issues its insert exactly for an argument object whose
    title is a string of at most 256 code units that the sanitizer does
    not empty, and whose notes, taskId and status are each absent or a
    string within its limit (for status: one of the two names). The insert
    carries the sanitized title, the sanitized notes unless they are absent
    or empty, and the status as given. *)
Theorem create_task_reaches_remote (args : jsval) (api : remote_api)
    (req : remote_request) :
  req ∈ remote_calls (serve (CallTool (lit "create_task") args) api).2
  ↔ ∃ title,
      prop args (lit "title") = VString title
      ∧ str_length title ≤ 256
      ∧ sanitize title ≠ []
      ∧ absent_or_string (prop args (lit "notes")) (λ s, str_length s ≤ 8192)
      ∧ absent_or_string (prop args (lit "taskId")) (λ s, str_length s ≤ 256)
      ∧ absent_or_string (prop args (lit "status")) (λ s, s ∈ VALID_TASK_STATUSES)
      ∧ req = TasksInsert (lit "@default") (sanitize title) (notes_sent args)
                (prop args (lit "status")).
Proof. apply create_task_calls_iff. Qed.

(** X10. [delete_task] issues its delete exactly for a string taskId of at most
    256 code units that the sanitizer does not empty, and the call carries
    the sanitized id. *)
Theorem delete_task_reaches_remote (args : jsval) (api : remote_api)
    (req : remote_request) :
  req ∈ remote_calls (serve (CallTool (lit "delete_task") args) api).2
  ↔ ∃ taskId,
      prop args (lit "taskId") = VString taskId
      ∧ str_length taskId ≤ 256
      ∧ sanitize taskId ≠ []
      ∧ req = TasksDelete (lit "@default") (sanitize taskId).
Proof. apply delete_task_calls_iff. Qed.

(** X11. [complete_task] issues its patch exactly for a string taskId of at most
    256 code units that the sanitizer does not empty, together with a
    status that is absent or one of the two names; the patch carries the
    sanitized id and the status given, or [completed] when none was. *)
Theorem complete_task_reaches_remote (args : jsval) (api : remote_api)
    (req : remote_request) :
  req ∈ remote_calls (serve (CallTool (lit "complete_task") args) api).2
  ↔ ∃ taskId,
      prop args (lit "taskId") = VString taskId
      ∧ str_length taskId ≤ 256
      ∧ sanitize taskId ≠ []
      ∧ absent_or_string (prop args (lit "status")) (λ s, s ∈ VALID_TASK_STATUSES)
      ∧ req = TasksPatch (lit "@default") (sanitize taskId)
                (js_or (prop args (lit "status")) (VString (lit "completed"))).
Proof. apply complete_task_calls_iff. Qed.

(** ** What is sent to the remote service *)

Lemma list_tasks_calls api req :
  req ∈ remote_calls (list_tasks api quiet).2 → req = TasksList default_tasklist.
Proof.
  unfold list_tasks.
  match goal with |- context [try_catch (await_remote ?r ≫= ?k) _ _ _] =>
    destruct (guarded_call r k api quiet) as [-> _] end.
  - intros r. apply local_bind; [apply local_member|intros d].
    apply local_bind; [apply local_member|intros; apply local_ret].
  - cbn. by intros ->%list_elem_of_singleton.
Qed.

Lemma read_resource_calls uri api req :
  req ∈ remote_calls (read_resource uri api quiet).2 → req = TasksList default_tasklist.
Proof.
  unfold read_resource. case_bool_decide; cbn [negb]; [|cbn; set_solver].
  match goal with |- context [try_catch (await_remote ?r ≫= ?k) _ _ _] =>
    destruct (guarded_call r k api quiet) as [-> _] end.
  - intros r. apply local_bind; [apply local_member|intros d].
    apply local_bind; [apply local_member|intros; apply local_ret].
  - cbn. by intros ->%list_elem_of_singleton.
Qed.

Lemma sanitize_clean max s :
  str_length s ≤ max → sanitize s ≠ [] → clean 1 max (sanitize s) = true.
Proof.
  intros Hlen Hne. unfold clean. rewrite sanitize_no_control. cbn.
  pose proof (sanitize_length s). destruct (str_length_nonneg (sanitize s)) as [? ?].
  apply andb_true_iff. split; [apply Z.leb_le|apply Z.leb_le; lia].
  destruct (decide (str_length (sanitize s) = 0)); [naive_solver|lia].
Qed.

Lemma notes_sent_clean args :
  absent_or_string (prop args (lit "notes")) (λ s, str_length s ≤ 8192) →
  from_option (clean 0 MAX_NOTES_LENGTH) true (notes_sent args) = true.
Proof.
  unfold notes_sent. intros [->|(notes & -> & Hlen)]; [done|].
  case_bool_decide; [done|]. cbn. unfold clean. rewrite sanitize_no_control. cbn.
  pose proof (sanitize_length notes). destruct (str_length_nonneg (sanitize notes)).
  apply andb_true_iff. unfold MAX_NOTES_LENGTH. split; apply Z.leb_le; lia.
Qed.

Lemma absent_or_valid_status v :
  absent_or_string v (λ s, s ∈ VALID_TASK_STATUSES) →
  is_undefined v || isValidTaskStatus v = true.
Proof. intros [->|(s & -> & Hs)]; [done|]. cbn. by apply bool_decide_eq_true_2. Qed.

(** X12. Only validated data reaches the remote service: every call names the
    list [@default]; a transmitted title has 1 to 256 code units, a
    transmitted task id 1 to 256 and transmitted notes at most 8192, none
    of them with a control character; a status sent by [create_task] is
    absent or one of the two names, and a status sent by [complete_task]
    is one of the two names. *)
Theorem remote_requests_well_formed (rq : request) (api : remote_api)
    (req : remote_request) :
  req ∈ remote_calls (serve rq api).2 → well_formed_request req = true.
Proof.
  destruct rq as [name args|uri].
  - unfold serve. cbn [handle]. unfold call_tool. repeat case_bool_decide.
    + by intros ->%list_tasks_calls.
    + intros (title & _ & Hlen & Hne & Hn & _ & Hs & ->)%create_task_calls_iff.
      cbn [well_formed_request].
      rewrite (sanitize_clean MAX_TITLE_LENGTH _ Hlen Hne), (notes_sent_clean _ Hn).
      by rewrite (absent_or_valid_status _ Hs).
    + intros (taskId & _ & Hlen & Hne & ->)%delete_task_calls_iff.
      cbn [well_formed_request].
      by rewrite (sanitize_clean MAX_TASK_ID_LENGTH _ Hlen Hne).
    + intros (taskId & _ & Hlen & Hne & Hs & ->)%complete_task_calls_iff.
      cbn [well_formed_request].
      rewrite (sanitize_clean MAX_TASK_ID_LENGTH _ Hlen Hne).
      by rewrite (defaulted_status_valid _ Hs).
    + cbn. set_solver.
  - by intros ->%read_resource_calls.
Qed.

Lemma remote_requests_well_formed_witness :
  well_formed_request
    (TasksInsert (lit "@default") (lit "Buy milk") None (VString (lit "needsAction")))
  = true.
Proof.
  apply (remote_requests_well_formed
           (CallTool (lit "create_task")
              (obj [(lit "title", VString ([32; 32]%N ++ lit "Buy milk" ++ [1]%N));
                    (lit "status", VString (lit "needsAction"))]))
           echo_api).
  vm_compute. apply list_elem_of_here.
Defined.

(** ** The advertised surface and the handlers *)

Lemma argument_error_not_method_not_found e msg :
  argument_error e = true → e ≠ McpError MethodNotFound msg.
Proof. by intros H ->. Qed.

(** X13. The tools announced by [ListTools] are exactly the names the
    dispatcher knows: a call to a listed name never ends in
    [MethodNotFound], and a call to any other name always does, before
    anything else happens. *)
Theorem listed_tools_are_the_dispatched_ones (name : jsstring) (args : jsval)
    (api : remote_api) :
  (name ∈ (t_name <$> list_tools)
   ∧ ∀ msg, (serve (CallTool name args) api).1 ≠ Throws (McpError MethodNotFound msg))
  ∨ ((name ∉ (t_name <$> list_tools))
     ∧ serve (CallTool name args) api
       = (Throws (McpError MethodNotFound (lit "Unknown tool: " ++ name)), quiet)).
Proof.
  unfold serve. cbn [handle].
  destruct (call_tool_staged name args) as [[Hin Hst]|[Hnot Hrun]].
  - left. split; [done|]. intros msg.
    destruct (staged_run _ _ api quiet Hst)
      as [(e & He & ->)|[(req & r & b & _ & ->)|(req & e & _ & ->)]];
      cbn; try discriminate.
    intros [= ->]. discriminate.
  - right. split; [done|]. apply Hrun.
Qed.

(** X14. The only resource announced by [ListResources] is the only one the
    read handler serves; any other URI is refused with [InvalidRequest],
    naming the URI, before any remote call. *)
Theorem listed_resources_are_the_readable_ones (uri : jsstring) (api : remote_api) :
  (uri ∈ (r_uri <$> list_resources)
   → ∀ msg, (serve (ReadResource uri) api).1 ≠ Throws (McpError InvalidRequest msg))
  ∧ (uri ∉ (r_uri <$> list_resources)
     → serve (ReadResource uri) api
       = (Throws (McpError InvalidRequest (lit "Unknown resource: " ++ uri)), quiet)).
Proof.
  change (r_uri <$> list_resources) with [lit "tasks://default"].
  rewrite list_elem_of_singleton. split.
  - intros -> msg. unfold serve. cbn [handle].
    destruct (staged_run _ _ api quiet (read_resource_staged (lit "tasks://default")))
      as [(e & He & H)|[(req & r & b & _ & ->)|(req & e & _ & ->)]];
      cbn; try discriminate.
    exfalso. revert H. unfold read_resource. rewrite bool_decide_eq_true_2 by done.
    cbn [negb]. unfold try_catch, mbind, M_bind, await_remote. cbn.
    destruct (api _); [|rewrite genericize_run; cbn; by intros [= <-]].
    intros H. repeat case_match; simplify_eq; cbn in *; try discriminate;
      rewrite genericize_run in *; simplify_eq; discriminate.
  - intros Hne. unfold serve. cbn [handle]. unfold read_resource.
    by rewrite bool_decide_eq_false_2.
Qed.

Lemma delete_task_invalid args api w :
  isValidDeleteTaskArgs args = false →
  ∃ msg, delete_task args api w = (Throws (McpError InvalidParams msg), w).
Proof. intros H. unfold delete_task. rewrite H. by eexists. Qed.

Lemma too_long_not_absent_or_string v s max :
  v = VString s → max < str_length s →
  ¬ absent_or_string v (λ s, str_length s ≤ max).
Proof. intros -> Hlen [?|(t & [= <-] & Ht)]; [done|lia]. Qed.

(** X15. Every length limit announced in a tool's input schema is enforced by
    that tool's handler: a string longer than the announced [maxLength]
    under that property is refused with [InvalidParams] before any remote
    call. *)
Theorem advertised_limits_enforced (t : tool) (p : schema_property) (max : Z)
    (fields : gmap jsstring jsval) (s : jsstring) (api : remote_api) :
  t ∈ list_tools →
  p ∈ t_properties t →
  p_maxLength p = Some max →
  fields !! p_name p = Some (VString s) →
  max < str_length s →
  ∃ msg, serve (CallTool (t_name t) (VObject fields)) api
         = (Throws (McpError InvalidParams msg), quiet).
Proof.
  intros Ht Hp Hmax Hs Hlen. apply prop_lookup in Hs.
  pose proof (too_long_not_absent_or_string _ _ _ Hs Hlen) as Hbad.
  unfold list_tools in Ht. rewrite !elem_of_cons, elem_of_nil in Ht.
  destruct Ht as [->|[->|[->|[->|[]]]]]; cbn [t_properties t_name] in *;
    rewrite ?elem_of_cons, ?elem_of_nil in Hp.
  - unfold serve. cbn [handle]. rewrite call_tool_create. apply create_task_invalid.
    apply not_true_iff_false. intros (H1 & H2 & _)%isValidCreateTaskArgs_object.
    destruct Hp as [->|[->|[]]]; cbn in Hmax; injection Hmax as <-; done.
  - destruct Hp.
  - unfold serve. cbn [handle]. rewrite call_tool_delete. apply delete_task_invalid.
    apply not_true_iff_false. intros (id & Hid & Hrange)%isValidDeleteTaskArgs_iff.
    destruct Hp as [->|[]]; cbn in Hmax; injection Hmax as <-.
    apply Hbad. right. exists id. split; [done|lia].
  - unfold serve. cbn [handle]. rewrite call_tool_complete. apply complete_task_invalid.
    apply not_true_iff_false. intros (id & Hid & Hrange & _)%isValidCompleteTaskArgs_iff.
    destruct Hp as [->|[->|[]]]; cbn in Hmax; [injection Hmax as <-|discriminate].
    apply Hbad. right. exists id. split; [done|lia].
Qed.

Lemma advertised_limits_enforced_witness :
  ∃ msg, serve (CallTool (lit "create_task")
                  (obj [(lit "title", VString (lit "a"));
                        (lit "notes", VString (replicate (Z.to_nat 8193) 97%N))]))
               echo_api
         = (Throws (McpError InvalidParams msg), quiet).
Proof.
  refine (advertised_limits_enforced
            (Tool (lit "create_task") (lit "Create a new task in Google Tasks")
               [SchemaProperty (lit "title") (lit "string") (lit "Title of the task")
                  (Some MAX_TITLE_LENGTH) None;
                SchemaProperty (lit "notes") (lit "string") (lit "Notes for the task")
                  (Some MAX_NOTES_LENGTH) None]
               [lit "title"])
            (SchemaProperty (lit "notes") (lit "string") (lit "Notes for the task")
               (Some MAX_NOTES_LENGTH) None)
            MAX_NOTES_LENGTH
            (list_to_map [(lit "title", VString (lit "a"));
                          (lit "notes", VString (replicate (Z.to_nat 8193) 97%N))])
            (replicate (Z.to_nat 8193) 97%N) echo_api _ _ _ _ _).
  - apply list_elem_of_here.
  - apply list_elem_of_further, list_elem_of_here.
  - reflexivity.
  - vm_compute. reflexivity.
  - vm_compute. reflexivity.
Defined.



(** ** The resource read and [list_tasks] *)

(** X17. Reading the resource [tasks://default] and calling [list_tasks] (with
    any arguments) are the same remote operation: same call, same log,
    same error, and on success the same JSON text, once as resource
    contents and once as tool content. *)
Theorem read_resource_is_list_tasks (arguments : jsval) (api : remote_api) :
  serve (ReadResource (lit "tasks://default")) api
  = (map_outcome (as_resource (lit "tasks://default"))
       (serve (CallTool (lit "list_tasks") arguments) api).1,
     (serve (CallTool (lit "list_tasks") arguments) api).2).
Proof.
  unfold serve. cbn [handle]. rewrite call_tool_list.
  unfold read_resource, list_tasks. rewrite bool_decide_eq_true_2 by done. cbn [negb].
  rewrite !guarded_call_run
    by (intros r; repeat (apply pure_bind; [apply pure_member|intros ?]);
        apply pure_ret).
  destruct (api (TasksList default_tasklist)) as [response|e].
  - destruct response as [| | | | | |fields]; try (rewrite !genericize_run; done);
      try done.
    cbn. destruct (fields !! lit "data") as [[| | | | | |]|]; cbn;
      rewrite ?genericize_run; done.
  - by rewrite !genericize_run.
Qed.

(** ** What comes back *)

(** X18. [list_tasks] ignores its arguments and relays [response.data.items] as
    it is; a response without a [data] member ends in the generic internal
    error. *)
Theorem list_tasks_relays_items (arguments : jsval) (api : remote_api)
    (response : jsval) :
  api (TasksList (lit "@default")) = Resolves response →
  (serve (CallTool (lit "list_tasks") arguments) api).1
  = if is_undefined response || is_null response
       || is_undefined (prop response (lit "data"))
       || is_null (prop response (lit "data"))
    then Throws (McpError InternalError
                   (lit "An error occurred while processing your request"))
    else Returns (ToolContent
                    (JSONstringify (prop (prop response (lit "data")) (lit "items")))).
Proof.
  intros Hapi. unfold serve. cbn [handle]. rewrite call_tool_list. unfold list_tasks.
  rewrite guarded_call_run
    by (intros r; repeat (apply pure_bind; [apply pure_member|intros ?]);
        apply pure_ret).
  change (lit "@default") with default_tasklist in Hapi. rewrite Hapi.
  destruct response as [| | | | | |fields]; try (rewrite genericize_run; done);
    try done.
  cbn. destruct (fields !! lit "data") as [[| | | | | |]|]; cbn;
    rewrite ?genericize_run; done.
Qed.

Lemma list_tasks_relays_items_witness :
  (serve (CallTool (lit "list_tasks") VNull) echo_api).1
  = Returns (ToolContent (JSONstringify (VArray []))).
Proof.
  apply (list_tasks_relays_items VNull echo_api
           (obj [(lit "data", obj [(lit "items", VArray [])])])).
  reflexivity.
Defined.

(** X19. When their remote call resolves, [create_task] and [complete_task]
    relay [response.data] as it is; a response that is [undefined] or
    [null] ends in the generic internal error. *)
Theorem created_and_updated_task_relayed (name : jsstring) (arguments : jsval)
    (api : remote_api) (req : remote_request) (response : jsval) :
  name = lit "create_task" ∨ name = lit "complete_task" →
  req ∈ remote_calls (serve (CallTool name arguments) api).2 →
  api req = Resolves response →
  (serve (CallTool name arguments) api).1
  = if is_undefined response || is_null response
    then Throws (McpError InternalError
                   (lit "An error occurred while processing your request"))
    else Returns (ToolContent (JSONstringify (prop response (lit "data")))).
Proof.
  assert (∀ r (w : world),
    match (stringify_data r api quiet).1 with
    | Returns a => (Returns a, w)
    | Throws e => genericize e api w
    end.1
    = if is_undefined r || is_null r
      then Throws (McpError InternalError
                     (lit "An error occurred while processing your request"))
      else Returns (ToolContent (JSONstringify (prop r (lit "data"))))) as Hk.
  { intros r w. destruct r; cbn; rewrite ?genericize_run; done. }
  assert (∀ r, pure_step (stringify_data r)) as Hpure.
  { intros r. apply pure_bind; [apply pure_member|intros; apply pure_ret]. }
  intros [-> | ->] Hin Hapi; revert Hin; unfold serve; cbn [handle].
  - rewrite call_tool_create. intros Hin.
    pose proof Hin as (title & Hv & Ht & Hne & ->)%create_task_calls.
    rewrite (create_task_valid _ title) by done.
    rewrite bool_decide_eq_false_2, guarded_call_run by done.
    rewrite Hapi. apply Hk.
  - rewrite call_tool_complete. intros Hin.
    pose proof Hin as (id & Hid & _ & Hne & Hst & ->)%complete_task_calls_iff.
    assert (isValidCompleteTaskArgs arguments = true) as Hv.
    { destruct (isValidCompleteTaskArgs arguments) eqn:Hv; [done|].
      revert Hin. unfold complete_task. rewrite Hv. cbn. set_solver. }
    rewrite (complete_task_valid _ id) by done.
    rewrite bool_decide_eq_false_2, guarded_call_run by done.
    change (lit "@default") with default_tasklist in Hapi. rewrite Hapi. apply Hk.
Qed.

Lemma created_and_updated_task_relayed_witness :
  (serve (CallTool (lit "complete_task") (obj [(lit "taskId", VString (lit "t1"))]))
         echo_api).1
  = Returns (ToolContent (JSONstringify (obj [(lit "items", VArray [])]))).
Proof.
  apply (created_and_updated_task_relayed (lit "complete_task")
           (obj [(lit "taskId", VString (lit "t1"))]) echo_api
           (TasksPatch (lit "@default") (lit "t1") (VString (lit "completed")))
           (obj [(lit "data", obj [(lit "items", VArray [])])])).
  - right. reflexivity.
  - vm_compute. apply list_elem_of_here.
  - reflexivity.
Defined.

(** X20. [delete_task] discards what the remote service answers: whenever its
    call resolves, with whatever value, the reply is the same fixed text. *)
Theorem delete_task_discards_response (arguments : jsval) (api : remote_api)
    (req : remote_request) (response : jsval) :
  req ∈ remote_calls (serve (CallTool (lit "delete_task") arguments) api).2 →
  api req = Resolves response →
  serve (CallTool (lit "delete_task") arguments) api
  = (Returns (ToolContent (Literal (lit "Task deleted successfully."))),
     World [req] []).
Proof.
  intros Hin Hapi.
  pose proof Hin as (id & Hid & Hlen & Hne & ->)%delete_task_calls_iff.
  revert Hin. unfold serve. cbn [handle]. rewrite call_tool_delete.
  destruct (isValidDeleteTaskArgs arguments) eqn:Hv;
    [|unfold delete_task; rewrite Hv; cbn; set_solver].
  intros _. rewrite (delete_task_valid _ id) by done.
  rewrite bool_decide_eq_false_2 by done.
  rewrite guarded_call_run by (intros; apply pure_ret).
  change (lit "@default") with default_tasklist in Hapi. by rewrite Hapi.
Qed.

Lemma delete_task_discards_response_witness :
  serve (CallTool (lit "delete_task") (obj [(lit "taskId", VString (lit "t1"))]))
        (λ _, Resolves VUndefined)
  = (Returns (ToolContent (Literal (lit "Task deleted successfully."))),
     World [TasksDelete (lit "@default") (lit "t1")] []).
Proof.
  apply (delete_task_discards_response
           (obj [(lit "taskId", VString (lit "t1"))]) (λ _, Resolves VUndefined)
           (TasksDelete (lit "@default") (lit "t1")) VUndefined).
  - vm_compute. apply list_elem_of_here.
  - reflexivity.
Defined.

(** ** Start-up *)

Lemma env_present (env : gmap jsstring jsstring) k :
  env_missing env k = false ↔ ∃ v, env !! k = Some v ∧ v ≠ [].
Proof.
  unfold env_missing. destruct (env !! k) as [v|]; cbn.
  - case_bool_decide as Hv; cbn; split; try discriminate.
    + intros (u & [= <-] & Hu). done.
    + eauto.
    + intros (u & [= <-] & Hu). done.
  - split; [discriminate|]. by intros (v & ? & _).
Qed.

(** X21. The process gets past its start-up checks exactly when the five
    credentials are all set to non-empty strings (an empty value counts as
    missing); otherwise it exits with code 1. *)
Theorem startup_proceeds_iff (env : gmap jsstring jsstring) :
  (startup_check env = Proceeds
   ↔ Forall (λ k, ∃ v, env !! k = Some v ∧ v ≠ [])
       [lit "CLIENT_ID"; lit "CLIENT_SECRET"; lit "REDIRECT_URI";
        lit "ACCESS_TOKEN"; lit "REFRESH_TOKEN"])
  ∧ (startup_check env = Proceeds ∨ ∃ message, startup_check env = Exits 1 message).
Proof.
  rewrite !Forall_cons, Forall_nil, <- !env_present. unfold startup_check.
  destruct (env_missing env (lit "CLIENT_ID")), (env_missing env (lit "CLIENT_SECRET")),
    (env_missing env (lit "REDIRECT_URI")), (env_missing env (lit "ACCESS_TOKEN")),
    (env_missing env (lit "REFRESH_TOKEN")); cbn; split; eauto;
    intuition discriminate.
Qed.

Lemma startup_proceeds_iff_witness :
  ∃ message,
    startup_check
      (list_to_map [(lit "CLIENT_ID", lit "id"); (lit "CLIENT_SECRET", lit "secret");
                    (lit "REDIRECT_URI", lit "http://localhost");
                    (lit "ACCESS_TOKEN", []); (lit "REFRESH_TOKEN", lit "r")])
    = Exits 1 message.
Proof.
  destruct (startup_proceeds_iff
              (list_to_map [(lit "CLIENT_ID", lit "id"); (lit "CLIENT_SECRET", lit "secret");
                            (lit "REDIRECT_URI", lit "http://localhost");
                            (lit "ACCESS_TOKEN", []); (lit "REFRESH_TOKEN", lit "r")]))
    as [_ [H|H]].
  - vm_compute in H. discriminate H.
  - exact H.
Defined.

(** ** The sanitizer on particular inputs *)

(** X22. The sanitizer returns the empty string exactly for inputs whose trimmed
    form holds nothing but control characters; inputs of whitespace only
    and inputs of control characters only are among them. *)
Theorem sanitize_empty_iff (s : jsstring) :
  (sanitize s = [] ↔ only_control (trim s) = true)
  ∧ (forallb is_whitespace s = true → sanitize s = [])
  ∧ (only_control s = true → sanitize s = []).
Proof.
  split; [apply sanitize_nil|]. split; [apply sanitize_whitespace|apply sanitize_only_control].
Qed.

Lemma sanitize_empty_iff_witness : sanitize [32; 9; 160; 8232]%N = [].
Proof.
  apply (proj1 (proj2 (sanitize_empty_iff [32; 9; 160; 8232]%N))). reflexivity.
Defined.

(** X23. On an input without control characters the sanitizer is exactly
    [trim], and its result has no whitespace at either end. *)
Theorem sanitize_clean_input_is_trimmed (s : jsstring) :
  no_control s = true →
  sanitize s = trim s
  ∧ leading_whitespace (sanitize s) = false
  ∧ trailing_whitespace (sanitize s) = false.
Proof. apply sanitize_trimmed_without_control. Qed.

Lemma sanitize_clean_input_is_trimmed_witness :
  sanitize ([32; 160]%N ++ lit "Buy milk" ++ [32]%N) = trim ([32; 160]%N ++ lit "Buy milk" ++ [32]%N)
  ∧ leading_whitespace (sanitize ([32; 160]%N ++ lit "Buy milk" ++ [32]%N)) = false
  ∧ trailing_whitespace (sanitize ([32; 160]%N ++ lit "Buy milk" ++ [32]%N)) = false.
Proof.
  apply (sanitize_clean_input_is_trimmed ([32; 160]%N ++ lit "Buy milk" ++ [32]%N)).
  reflexivity.
Defined.

(** ** Witnesses for the characterizations above *)

Lemma create_task_reaches_remote_witness :
  TasksInsert (lit "@default") (lit "Buy milk") (Some (lit "2 l")) VUndefined
  ∈ remote_calls
      (serve (CallTool (lit "create_task")
                (obj [(lit "title", VString (lit " Buy milk"));
                      (lit "notes", VString (lit "2 l"))]))
             echo_api).2.
Proof.
  apply (proj2 (create_task_reaches_remote
                  (obj [(lit "title", VString (lit " Buy milk"));
                        (lit "notes", VString (lit "2 l"))])
                  echo_api _)).
  exists (lit " Buy milk"). repeat split.
  - vm_compute. discriminate.
  - vm_compute. discriminate.
  - right. exists (lit "2 l"). split; [reflexivity|]. vm_compute. discriminate.
  - by left.
  - by left.
Defined.

Lemma delete_task_reaches_remote_witness :
  TasksDelete (lit "@default") (lit "t1")
  ∈ remote_calls
      (serve (CallTool (lit "delete_task") (obj [(lit "taskId", VString (lit "t1 "))]))
             echo_api).2.
Proof.
  apply (proj2 (delete_task_reaches_remote
                  (obj [(lit "taskId", VString (lit "t1 "))]) echo_api _)).
  exists (lit "t1 "). repeat split.
  - vm_compute. discriminate.
  - vm_compute. discriminate.
Defined.

Lemma complete_task_reaches_remote_witness :
  TasksPatch (lit "@default") (lit "t1") (VString (lit "needsAction"))
  ∈ remote_calls
      (serve (CallTool (lit "complete_task")
                (obj [(lit "taskId", VString (lit "t1"));
                      (lit "status", VString (lit "needsAction"))]))
             echo_api).2.
Proof.
  apply (proj2 (complete_task_reaches_remote
                  (obj [(lit "taskId", VString (lit "t1"));
                        (lit "status", VString (lit "needsAction"))])
                  echo_api _)).
  exists (lit "t1"). repeat split.
  - vm_compute. discriminate.
  - vm_compute. discriminate.
  - right. exists (lit "needsAction"). split; [reflexivity|]. apply list_elem_of_here.
Defined.

Lemma listed_resources_are_the_readable_ones_witness :
  serve (ReadResource (lit "tasks://other")) echo_api
  = (Throws (McpError InvalidRequest (lit "Unknown resource: tasks://other")), quiet).
Proof.
  apply (proj2 (listed_resources_are_the_readable_ones (lit "tasks://other") echo_api)).
  intros [H|H]%elem_of_cons; [vm_compute in H; discriminate H|].
  by apply elem_of_nil in H.
Defined.

(** ** Two facts from the first part, restated *)

(** X24. A request makes at most one remote call, whatever its kind, its
    arguments and the behaviour of the remote service. *)
Theorem at_most_one_remote_call (rq : request) (api : remote_api) :
  (length (remote_calls (serve rq api).2) ≤ 1)%nat.
Proof. apply serve_at_most_one_call. Qed.

(** X25. What the caller sees after a remote failure is the same for any two
    thrown values of the same class: the name and text of the failure
    never influence it. *)
Theorem failure_text_never_surfaces (rq : request) (e1 e2 : thrown) :
  instanceof_Error e1 = instanceof_Error e2 →
  (serve rq (failing_api e1)).1 = (serve rq (failing_api e2)).1.
Proof. apply remote_failure_text_independent. Qed.

Lemma failure_text_never_surfaces_witness :
  (serve (CallTool (lit "list_tasks") VUndefined)
         (failing_api (Error (lit "Error") (lit "401 invalid_client secret=abc")))).1
  = (serve (CallTool (lit "list_tasks") VUndefined)
           (failing_api (Error (lit "TypeError") (lit "fetch failed")))).1.
Proof.
  apply (failure_text_never_surfaces (CallTool (lit "list_tasks") VUndefined)).
  reflexivity.
Defined.
